(** * PandasAI MCP service (dist/index.js): dispatch, session state, uploads and SSE

    A shallow embedding of the Express application of [dist/index.js]:
    the JavaScript values the handlers inspect, the two process-wide
    variables [currentDataframe] and [currentLLM], the route handlers as
    programs of a state-and-exception monad, and the per-connection timers of
    the [/sse] endpoint as a labelled transition system over a virtual clock. *)

From Stdlib Require Import ZArith String Ascii List Lia DecimalString.
From Stdlib Require Import Floats.SpecFloat.
From stdpp Require Import base tactics option list strings gmap relations.

Open Scope string_scope.
Open Scope list_scope.

(** ** JavaScript values *)

(** A JavaScript number is an IEEE 754 binary64 value. *)
Definition number : Type := spec_float.

Definition number_of_Z (z : Z) : number := binary_normalize 53 1024 z 0 false.

Definition number_of_nat (n : nat) : number := number_of_Z (Z.of_nat n).

(** The values that reach the handlers: parsed JSON, plus [undefined] for a
    missing property. The field list of an object is in insertion order and
    has pairwise distinct keys. *)
#[warnings="-register-all"]
Inductive jsval : Type :=
| JUndefined
| JNull
| JBool (b : bool)
| JNum (x : number)
| JStr (s : string)
| JArr (items : list jsval)
| JObj (fields : list (string * jsval)).

(** A thrown [Error]; the handlers only ever read its [message]. *)
Record exn : Type := Error { message : string }.

(** ToBoolean, as used by [!v], [if (v)] and [a || b]. *)
Definition truthy (v : jsval) : bool :=
  match v with
  | JUndefined | JNull => false
  | JBool b => b
  | JNum (S754_zero _) | JNum S754_nan => false
  | JNum _ => true
  | JStr s => negb (String.eqb s "")
  | JArr _ | JObj _ => true
  end.

(** [a || b] *)
Definition js_or (a b : jsval) : jsval := if truthy a then a else b.

(** [v === 'literal'] for a string literal. *)
Definition strict_eq_str (v : jsval) (lit : string) : bool :=
  match v with
  | JStr s => String.eqb s lit
  | _ => false
  end.

Definition nullish (v : jsval) : bool :=
  match v with
  | JUndefined | JNull => true
  | _ => false
  end.

Fixpoint lookup_field (k : string) (fields : list (string * jsval)) : jsval :=
  match fields with
  | [] => JUndefined
  | (k', v) :: rest => if String.eqb k k' then v else lookup_field k rest
  end.

(** [v.k] for a non-nullish [v]. None of the property names the program reads
    ([method], [params], [name], [arguments], [query], [llm_config], [model],
    [answer]) exists on a prototype of a JSON value, so only objects answer. *)
Definition prop (v : jsval) (k : string) : jsval :=
  match v with
  | JObj fields => lookup_field k fields
  | _ => JUndefined
  end.

(** [Object.keys(o)] of an object given by its fields. *)
Definition Object_keys (o : list (string * jsval)) : list string := map fst o.

(** [needle] occurs in [hay]. *)
Definition str_contains (needle hay : string) : Prop :=
  exists pre post, hay = pre +:+ needle +:+ post.

(** ** The runtime and the collaborators

    What Node.js and the libraries provide, and the three modules of the
    repository that [dist/index.js] requires ([./src/mcp-handler],
    [./src/data-analyzer], [./src/llm-manager]), are interfaces here; every
    statement below holds for all their implementations. *)

Class Runtime : Type := {
  (** Number::toString *)
  number_to_string : number -> string;
  (** message of the TypeError of [const { k, ... } = target] on a nullish value *)
  cannot_destructure : string -> string -> jsval -> string;
  (** message of the TypeError of reading property [k] of a nullish value *)
  cannot_read_property : string -> jsval -> string;
  (** message of the TypeError of converting an object that has no usable
      [toString] or [valueOf] to a primitive *)
  cannot_convert_to_primitive : string;
  (** [new Date(t).toISOString()], [t] in milliseconds *)
  toISOString : Z -> string;
  (** [path.extname] *)
  path_extname : string -> string;
  (** [String.prototype.toLowerCase] *)
  toLowerCase : string -> string
}.

(** A loaded table, the object literal stored by the upload handler. *)
Record Dataframe : Type := mkDataframe {
  data : list (list (string * jsval));
  filename : string;
  rows : nat;
  columns : nat
}.

Class MCPHandler : Type := {
  initialize : jsval -> exn + jsval;
  listTools : exn + jsval
}.

Class DataAnalyzer : Type := {
  analyze : Dataframe -> jsval -> jsval -> exn + jsval
}.

Class LLMManager : Type := {
  configureLLM : jsval -> exn + jsval
}.

(** A workbook as [readExcelFile] uses it: [SheetNames] and [Sheets]. *)
Record Workbook (Sheet : Type) : Type := mkWorkbook {
  SheetNames : list string;
  Sheets : option string -> option Sheet
}.
Arguments mkWorkbook {Sheet} _ _.
Arguments SheetNames {Sheet} _.
Arguments Sheets {Sheet} _ _.

Class Files : Type := {
  (** the records emitted as ['data'] by
      [fs.createReadStream(p).pipe(csv())], then ['end'] ([None]) or
      ['error'] *)
  csv_stream : string -> list (list (string * jsval)) * option exn;
  Sheet : Type;
  XLSX_readFile : string -> exn + Workbook Sheet;
  XLSX_sheet_to_json : option Sheet -> exn + list (list (string * jsval));
  (** [fs.unlinkSync]: [Some e] when it throws *)
  fs_unlinkSync : string -> option exn
}.

(** ** Process state *)

(** Calls made while a request is served, oldest first: the collaborators
    invoked and the handler functions entered. This is a record of what
    happened; no handler reads it. *)
Inductive Call : Type :=
| CallInitialize (params : jsval)
| CallListTools
| CallConfigureLLM (config : jsval)
| CallAnalyze (df : Dataframe) (query llm : jsval)
| CallReadCSVFile (filePath : string)
| CallReadExcelFile (filePath : string)
| CallUnlinkSync (filePath : string)
| EnterHandleToolCall (params : jsval)
| EnterHandleAnalyzeData (args : jsval)
| EnterHandleConfigureLLM (args : jsval).

(** [let currentDataframe = null; let currentLLM = null;] *)
Record State : Type := mkState {
  currentDataframe : option Dataframe;
  currentLLM : jsval;
  calls : list Call
}.

Definition initial_state : State :=
  {| currentDataframe := None; currentLLM := JNull; calls := [] |}.

Definition set_currentDataframe (d : Dataframe) (s : State) : State :=
  {| currentDataframe := Some d; currentLLM := currentLLM s; calls := calls s |}.

Definition set_currentLLM (l : jsval) (s : State) : State :=
  {| currentDataframe := currentDataframe s; currentLLM := l; calls := calls s |}.

Definition record_call (c : Call) (s : State) : State :=
  {| currentDataframe := currentDataframe s; currentLLM := currentLLM s;
     calls := calls s ++ [c] |}.

(** ** The monad of handler bodies

    A handler body runs on the state and either returns or throws; what it
    wrote before throwing stays written. Each request is run to completion:
    an [await] is the call of the collaborator. *)
Definition M (A : Type) : Type := State -> (exn + A) * State.

Definition ret {A} (a : A) : M A := fun s => (inr a, s).

Definition throw {A} (e : exn) : M A := fun s => (inl e, s).

Definition bind {A B} (m : M A) (k : A -> M B) : M B :=
  fun s =>
    match m s with
    | (inl e, s') => (inl e, s')
    | (inr a, s') => k a s'
    end.

(** [try { m } catch (error) { h error }] *)
Definition try_catch {A} (m : M A) (h : exn -> M A) : M A :=
  fun s =>
    match m s with
    | (inl e, s') => h e s'
    | (inr a, s') => (inr a, s')
    end.

Definition get_state : M State := fun s => (inr s, s).

Definition modify (f : State -> State) : M unit := fun s => (inr tt, f s).

(** the outcome of a collaborator, returned or thrown *)
Definition lift {A} (r : exn + A) : M A := fun s => (r, s).

Declare Scope js_scope.
Delimit Scope js_scope with js.
Notation "x <- m ;; k" := (bind m (fun x => k))
  (at level 100, m at next level, right associativity) : js_scope.
Notation "m ;; k" := (bind m (fun _ => k))
  (at level 100, right associativity) : js_scope.
Notation "'try' m 'catch' e '=>' h" := (try_catch m (fun e => h))
  (at level 100, e name, m at level 200, h at level 200) : js_scope.
Open Scope js_scope.

(** An HTTP response: [res.status(n).json(v)]; [res.json(v)] has status 200. *)
Record Response : Type := mkResponse {
  status : Z;
  body : jsval
}.

Definition res_json (v : jsval) : Response := {| status := 200%Z; body := v |}.

Definition res_status_json (n : Z) (v : jsval) : Response :=
  {| status := n; body := v |}.

(** [{ content: [{ type: 'text', text }] }] *)
Definition text_content (text : jsval) : jsval :=
  JObj [("content", JArr [JObj [("type", JStr "text"); ("text", text)]])].

Section Server.

Context `{RT : Runtime} `{MH : MCPHandler} `{DA : DataAnalyzer}
        `{LM : LLMManager} `{FS : Files}.

(** ToString, as applied by a template literal. An object is converted by
    its [toString]: the inherited one gives ["[object Object]"]; an own
    property [toString] of a parsed JSON object is never a function, and
    then neither it nor [valueOf] yields a primitive, so the conversion
    throws a TypeError. An array is converted by [join], which converts its
    elements in order ([undefined] and [null] as the empty string) and
    throws when one of them does. *)
Fixpoint to_string (v : jsval) : exn + string :=
  match v with
  | JUndefined => inr "undefined"
  | JNull => inr "null"
  | JBool true => inr "true"
  | JBool false => inr "false"
  | JNum x => inr (number_to_string x)
  | JStr s => inr s
  | JArr items =>
      match
        (fix join_items (l : list jsval) : exn + list string :=
           match l with
           | [] => inr []
           | x :: rest =>
               match (if nullish x then inr "" else to_string x) with
               | inl e => inl e
               | inr shown =>
                   match join_items rest with
                   | inl e => inl e
                   | inr others => inr (shown :: others)
                   end
               end
           end) items
      with
      | inl e => inl e
      | inr parts => inr (String.concat "," parts)
      end
  | JObj fields =>
      if existsb (fun kv => String.eqb (fst kv) "toString") fields
      then inl (Error cannot_convert_to_primitive)
      else inr "[object Object]"
  end.

(** [const { k, ... } = v] throws on [undefined] and [null]. *)
Definition destructurable (k target : string) (v : jsval) : M unit :=
  if nullish v then throw (Error (cannot_destructure k target v)) else ret tt.

(** [v.k] *)
Definition read_prop (v : jsval) (k : string) : M jsval :=
  if nullish v then throw (Error (cannot_read_property k v)) else ret (prop v k).

(** *** [handleConfigureLLM] *)
Definition handleConfigureLLM (args : jsval) : M jsval :=
  modify (record_call (EnterHandleConfigureLLM args)) ;;
  try
    (modify (record_call (CallConfigureLLM args)) ;;
     llm <- lift (configureLLM args) ;;
     modify (set_currentLLM llm) ;;
     model <- read_prop args "model" ;;
     shown <- lift (to_string model) ;;
     ret (text_content (JStr ("LLM配置成功: " +:+ shown))))
  catch error =>
    throw (Error ("LLM配置失败: " +:+ message error)).

(** *** [handleAnalyzeData]

    [df] is [currentDataframe] as tested at the top; the call of the engine
    reads the global again, and nothing in between writes it. *)
Definition handleAnalyzeData (args : jsval) : M jsval :=
  modify (record_call (EnterHandleAnalyzeData args)) ;;
  try
    (destructurable "query" "args" args ;;
     let query := prop args "query" in
     let llm_config := prop args "llm_config" in
     s <- get_state ;;
     match currentDataframe s with
     | None => throw (Error "请先上传数据文件")
     | Some df =>
         (if truthy llm_config
          then modify (record_call (CallConfigureLLM llm_config)) ;;
               llm <- lift (configureLLM llm_config) ;;
               modify (set_currentLLM llm)
          else ret tt) ;;
         s <- get_state ;;
         if negb (truthy (currentLLM s))
         then throw (Error "请先配置LLM")
         else
           modify (record_call (CallAnalyze df query (currentLLM s))) ;;
           result <- lift (analyze df query (currentLLM s)) ;;
           answer <- read_prop result "answer" ;;
           ret (text_content (js_or answer (JStr "分析完成")))
     end)
  catch error =>
    throw (Error ("数据分析失败: " +:+ message error)).

(** *** [handleToolCall] *)
Definition handleToolCall (params : jsval) : M jsval :=
  modify (record_call (EnterHandleToolCall params)) ;;
  destructurable "name" "params" params ;;
  let name := prop params "name" in
  let args := prop params "arguments" in
  if strict_eq_str name "analyze_data" then handleAnalyzeData args
  else if strict_eq_str name "configure_llm" then handleConfigureLLM args
  else shown <- lift (to_string name) ;;
       throw (Error ("未知的工具: " +:+ shown)).

(** [{ error: { code: -1, message } }] *)
Definition mcp_error (msg : string) : jsval :=
  JObj [("error", JObj [("code", JNum (number_of_Z (-1))); ("message", JStr msg)])].

(** The body of a route handler, [try { m } catch (error) { res... }]: the
    response sent and the state left. *)
Definition try_respond (m : M Response) (h : exn -> Response) (s : State)
  : Response * State :=
  match m s with
  | (inr r, s') => (r, s')
  | (inl e, s') => (h e, s')
  end.

(** *** [app.post('/mcp')]

    The [console.log] at the top of the handler renders [method] in a
    template literal, and so throws where [to_string] does. *)
Definition post_mcp (req_body : jsval) : State -> Response * State :=
  try_respond
    (destructurable "method" "req.body" req_body ;;
     let method := prop req_body "method" in
     let params :=
       match prop req_body "params" with
       | JUndefined => JObj []
       | p => p
       end in
     lift (to_string method) ;;
     result <-
       (if strict_eq_str method "initialize" then
          modify (record_call (CallInitialize params)) ;;
          lift (initialize params)
        else if strict_eq_str method "notifications/initialized" then
          ret (JObj [("success", JBool true)])
        else if strict_eq_str method "tools/list" then
          modify (record_call CallListTools) ;;
          lift listTools
        else if strict_eq_str method "tools/call" then
          handleToolCall params
        else shown <- lift (to_string method) ;;
             throw (Error ("不支持的MCP方法: " +:+ shown))) ;;
     ret (res_json (JObj [("result", result)])))
    (fun error => res_status_json 400%Z (mcp_error (message error))).

(** *** [readCSVFile]: collect the ['data'] records, resolve on ['end'],
    reject on ['error'] *)
Definition readCSVFile (filePath : string) : M (list (list (string * jsval))) :=
  modify (record_call (CallReadCSVFile filePath)) ;;
  let '(emitted, final) := csv_stream filePath in
  let results := fold_left (fun results data => results ++ [data]) emitted [] in
  match final with
  | None => ret results
  | Some error => throw error
  end.

(** *** [readExcelFile]: the first sheet of the workbook as records *)
Definition readExcelFile (filePath : string) : M (list (list (string * jsval))) :=
  modify (record_call (CallReadExcelFile filePath)) ;;
  try
    (workbook <- lift (XLSX_readFile filePath) ;;
     let sheetName := head (SheetNames workbook) in
     let worksheet := Sheets workbook sheetName in
     lift (XLSX_sheet_to_json worksheet))
  catch error =>
    throw error.

(** [req.file] as multer's disk storage leaves it. *)
Record UploadedFile : Type := mkUploadedFile {
  originalname : string;
  path : string
}.

(** multer's [fileFilter] *)
Definition fileFilter (file : UploadedFile) : exn + unit :=
  let allowedTypes := [".csv"; ".xlsx"; ".xls"] in
  let ext := toLowerCase (path_extname (originalname file)) in
  if existsb (String.eqb ext) allowedTypes
  then inr tt
  else inl (Error "不支持的文件格式。请上传CSV或Excel文件。").

(** The error-handling middleware, [app.use((error, req, res, next) => ...)]. *)
Definition error_middleware (error : exn) : Response :=
  res_status_json 500%Z
    (JObj [("error", JStr "内部服务器错误"); ("message", JStr (message error))]).

(** The success body of [/upload]. *)
Definition upload_ok (name : string) (nrows ncolumns : nat)
    (preview : list (list (string * jsval))) : jsval :=
  JObj [("message", JStr "文件上传成功");
        ("filename", JStr name);
        ("rows", JNum (number_of_nat nrows));
        ("columns", JNum (number_of_nat ncolumns));
        ("preview", JArr (map JObj preview))].

(** [{ error: msg }] *)
Definition error_body (msg : string) : jsval := JObj [("error", JStr msg)].

(** The handler of [app.post('/upload', upload.single('file'), ...)]. *)
Definition upload_handler (req_file : option UploadedFile)
  : State -> Response * State :=
  try_respond
    (match req_file with
     | None => ret (res_status_json 400%Z (error_body "请选择要上传的文件"))
     | Some file =>
         let filePath := path file in
         let ext := toLowerCase (path_extname (originalname file)) in
         data <-
           (if String.eqb ext ".csv" then readCSVFile filePath
            else if String.eqb ext ".xlsx" || String.eqb ext ".xls"
                 then readExcelFile filePath
            else throw (Error "不支持的文件格式")) ;;
         modify (set_currentDataframe
                   {| data := data;
                      filename := originalname file;
                      rows := length data;
                      columns :=
                        if (0 <? length data)%nat
                        then length (Object_keys (nth 0 data []))
                        else 0%nat |}) ;;
         modify (record_call (CallUnlinkSync filePath)) ;;
         match fs_unlinkSync filePath with
         | Some error => throw error
         | None =>
             s <- get_state ;;
             match currentDataframe s with
             | None => throw (Error (cannot_read_property "rows" JNull))
             | Some current =>
                 ret (res_json (upload_ok (originalname file) (rows current)
                                  (columns current) (take 5 data)))
             end
         end
     end)
    (fun error => res_status_json 500%Z (error_body (message error))).

(** *** [app.post('/upload')]: multer, then the handler *)
Definition post_upload (file : option UploadedFile) : State -> Response * State :=
  match file with
  | None => upload_handler None
  | Some f =>
      match fileFilter f with
      | inl error => fun s => (error_middleware error, s)
      | inr _ => upload_handler (Some f)
      end
  end.

(** *** [app.post('/analyze')] *)
Definition post_analyze (req_body : jsval) : State -> Response * State :=
  try_respond
    (destructurable "query" "req.body" req_body ;;
     let query := prop req_body "query" in
     let llm_config := prop req_body "llm_config" in
     if negb (truthy query)
     then ret (res_status_json 400%Z (error_body "请提供分析查询"))
     else
       result <- handleAnalyzeData
                   (JObj [("query", query); ("llm_config", llm_config)]) ;;
       ret (res_json result))
    (fun error => res_status_json 500%Z (error_body (message error))).

(** *** [app.post('/configure-llm')] *)
Definition post_configure_llm (req_body : jsval) : State -> Response * State :=
  try_respond
    (result <- handleConfigureLLM req_body ;;
     ret (res_json result))
    (fun error => res_status_json 500%Z (error_body (message error))).

(** *** [app.get('/status')] at time [now] *)
Definition get_status (now : Z) (s : State) : Response :=
  res_json
    (JObj [("status", JStr "running");
           ("service", JStr "PandasAI MCP Service (Node.js)");
           ("version", JStr "1.0.0");
           ("timestamp", JStr (toISOString now));
           ("data_loaded", JBool (bool_decide (is_Some (currentDataframe s))));
           ("llm_configured", JBool (truthy (currentLLM s)));
           ("dataframe_info",
            match currentDataframe s with
            | Some df =>
                JObj [("filename", JStr (filename df));
                      ("rows", JNum (number_of_nat (rows df)));
                      ("columns", JNum (number_of_nat (columns df)))]
            | None => JNull
            end)]).

(** ** The [/sse] endpoint

    A subscriber is a pair [(req, res)], here a connection number. What
    [res.write] sent is kept per connection, each chunk
    [data: <JSON.stringify(payload)>\n\n] as its payload together with the
    time it was written. *)

(** The two callbacks given to [setInterval]; each closes over its [res]. *)
Inductive TimerCallback : Type :=
| Heartbeat (c : nat)
| SendStatus (c : nat).

Definition target (cb : TimerCallback) : nat :=
  match cb with
  | Heartbeat c | SendStatus c => c
  end.

Record Timer : Type := mkTimer {
  callback : TimerCallback;
  interval : Z;
  due : Z
}.

(** A subscriber: the chunks written to [res], the ['close'] listener of
    [req] if one is registered (it closes over the handles [heartbeat] and
    [statusInterval]), and whether the client has disconnected. *)
Record Connection : Type := mkConnection {
  written : list (Z * jsval);
  close_listener : option (nat * nat);
  closed : bool
}.

(** The process: the two globals, the clock (milliseconds), the timer table
    of the event loop and the subscribers. *)
Record World : Type := mkWorld {
  session : State;
  now : Z;
  timers : gmap nat Timer;
  next_timer : nat;
  connections : gmap nat Connection
}.

Definition initial_world (t : Z) : World :=
  {| session := initial_state; now := t; timers := ∅; next_timer := 0;
     connections := ∅ |}.

Definition connection_event (t : Z) : jsval :=
  JObj [("type", JStr "connection");
        ("message", JStr "已连接到PandasAI MCP服务");
        ("timestamp", JStr (toISOString t))].

Definition heartbeat_event (t : Z) : jsval :=
  JObj [("type", JStr "heartbeat");
        ("timestamp", JStr (toISOString t))].

(** [v !== null] *)
Definition not_null (v : jsval) : bool :=
  match v with
  | JNull => false
  | _ => true
  end.

Definition status_event (s : State) (t : Z) : jsval :=
  JObj [("type", JStr "status");
        ("data",
         JObj [("service", JStr "PandasAI MCP Service");
               ("version", JStr "1.0.0");
               ("status", JStr "running");
               ("dataLoaded", JBool (bool_decide (is_Some (currentDataframe s))));
               ("llmConfigured", JBool (not_null (currentLLM s)));
               ("timestamp", JStr (toISOString t))])].

(** [res.write(chunk)] on connection [c] *)
Definition res_write (c : nat) (payload : jsval) (w : World) : World :=
  {| session := session w; now := now w; timers := timers w;
     next_timer := next_timer w;
     connections :=
       alter (fun conn =>
                {| written := written conn ++ [(now w, payload)];
                   close_listener := close_listener conn;
                   closed := closed conn |}) c (connections w) |}.

(** [setInterval(cb, ms)]: the handle, and the world with the timer armed *)
Definition setInterval (cb : TimerCallback) (ms : Z) (w : World) : nat * World :=
  (next_timer w,
   {| session := session w; now := now w;
      timers := <[next_timer w := {| callback := cb; interval := ms;
                                     due := now w + ms |}]> (timers w);
      next_timer := S (next_timer w);
      connections := connections w |}).

(** [clearInterval(id)] *)
Definition clearInterval (id : nat) (w : World) : World :=
  {| session := session w; now := now w; timers := delete id (timers w);
     next_timer := next_timer w; connections := connections w |}.

(** the closure [sendStatus] of connection [c] *)
Definition sendStatus (c : nat) (w : World) : World :=
  res_write c (status_event (session w) (now w)) w.

(** [req.on('close', ...)]: the listener keeps the two handles *)
Definition req_on_close (c heartbeat statusInterval : nat) (w : World) : World :=
  {| session := session w; now := now w; timers := timers w;
     next_timer := next_timer w;
     connections :=
       alter (fun conn =>
                {| written := written conn;
                   close_listener := Some (heartbeat, statusInterval);
                   closed := closed conn |})
             c (connections w) |}.

(** *** [app.get('/sse')] for a new subscriber [c] *)
Definition get_sse (c : nat) (w : World) : World :=
  let w := {| session := session w; now := now w; timers := timers w;
              next_timer := next_timer w;
              connections :=
                <[c := {| written := []; close_listener := None;
                          closed := false |}]> (connections w) |} in
  let w := res_write c (connection_event (now w)) w in
  let '(heartbeat, w) := setInterval (Heartbeat c) 30000 w in
  let w := sendStatus c w in
  let '(statusInterval, w) := setInterval (SendStatus c) 60000 w in
  req_on_close c heartbeat statusInterval w.

(** The client of connection [c] disconnects: the ['close'] listener, if
    any, runs. *)
Definition on_close (c : nat) (conn : Connection) (w : World) : World :=
  let w :=
    match close_listener conn with
    | Some (heartbeat, statusInterval) =>
        clearInterval statusInterval (clearInterval heartbeat w)
    | None => w
    end in
  {| session := session w; now := now w; timers := timers w;
     next_timer := next_timer w;
     connections :=
       <[c := {| written := written conn;
                 close_listener := close_listener conn;
                 closed := true |}]> (connections w) |}.

(** The event loop runs the callback of timer [id] and re-arms it. *)
Definition fire (id : nat) (tm : Timer) (w : World) : World :=
  let w :=
    match callback tm with
    | Heartbeat c => res_write c (heartbeat_event (now w)) w
    | SendStatus c => sendStatus c w
    end in
  {| session := session w; now := now w;
     timers := <[id := {| callback := callback tm; interval := interval tm;
                          due := now w + interval tm |}]> (timers w);
     next_timer := next_timer w; connections := connections w |}.

(** The requests that touch the two globals. *)
Inductive Request : Type :=
| PostMcp (req_body : jsval)
| PostUpload (file : option UploadedFile)
| PostAnalyze (req_body : jsval)
| PostConfigureLLM (req_body : jsval)
| GetStatus.

Definition handle (r : Request) (t : Z) (s : State) : Response * State :=
  match r with
  | PostMcp req_body => post_mcp req_body s
  | PostUpload file => post_upload file s
  | PostAnalyze req_body => post_analyze req_body s
  | PostConfigureLLM req_body => post_configure_llm req_body s
  | GetStatus => (get_status t s, s)
  end.

Definition serve (r : Request) (w : World) : World :=
  {| session := snd (handle r (now w) (session w)); now := now w;
     timers := timers w; next_timer := next_timer w;
     connections := connections w |}.

(** What can happen next in the process. The clock is virtual: time passes
    only up to the next timer that is due, and a due timer runs at that
    time. *)
Inductive Label : Type :=
| LConnect (c : nat)
| LClose (c : nat)
| LFire (id : nat)
| LAdvance (t : Z)
| LRequest (r : Request).

Definition exec (l : Label) (w : World) : option World :=
  match l with
  | LConnect c =>
      match connections w !! c with
      | None => Some (get_sse c w)
      | Some _ => None
      end
  | LClose c =>
      match connections w !! c with
      | Some conn => if closed conn then None else Some (on_close c conn w)
      | None => None
      end
  | LFire id =>
      match timers w !! id with
      | Some tm => if decide (due tm <= now w)%Z then Some (fire id tm w) else None
      | None => None
      end
  | LAdvance t =>
      if decide ((now w < t)%Z /\ map_Forall (fun _ tm => (t <= due tm)%Z) (timers w))
      then Some {| session := session w; now := t; timers := timers w;
                   next_timer := next_timer w; connections := connections w |}
      else None
  | LRequest r => Some (serve r w)
  end.

Fixpoint run (ls : list Label) (w : World) : option World :=
  match ls with
  | [] => Some w
  | l :: ls' =>
      match exec l w with
      | Some w' => run ls' w'
      | None => None
      end
  end.

(** The chunks of one event type, by the time they were written. *)
Definition times_of (type : string) (chunks : list (Z * jsval)) : list Z :=
  map fst (List.filter (fun ch => strict_eq_str (prop (snd ch) "type") type) chunks).

(** [start], [start + period], ..., [n] terms. *)
Definition every (period start : Z) (n : nat) : list Z :=
  map (fun k => (start + period * Z.of_nat k)%Z) (seq 0 n).

(** ** Notions used in the statements *)


(** The tools with a [case] of their own in [handleToolCall]. *)
Definition known_tool (name : jsval) : bool :=
  strict_eq_str name "analyze_data" || strict_eq_str name "configure_llm".

(** [params] as [/mcp] destructures it, with its default [{}]. *)
Definition params_of (req_body : jsval) : jsval :=
  match prop req_body "params" with
  | JUndefined => JObj []
  | p => p
  end.

(** What the [catch] of [handleAnalyzeData] throws for a failure with
    message [original]. *)
Definition analysis_failed (original : string) : exn :=
  Error ("数据分析失败: " +:+ original).

(** The part of [handleAnalyzeData] after the inline configuration, from
    state [s1]. *)
Definition analysis_from (df : Dataframe) (query : jsval) (s1 : State)
  : (exn + jsval) * State :=
  if truthy (currentLLM s1) then
    let s2 := record_call (CallAnalyze df query (currentLLM s1)) s1 in
    match analyze df query (currentLLM s1) with
    | inl e => (inl (analysis_failed (message e)), s2)
    | inr result =>
        if nullish result
        then (inl (analysis_failed (cannot_read_property "answer" result)), s2)
        else (inr (text_content (js_or (prop result "answer") (JStr "分析完成"))), s2)
    end
  else (inl (analysis_failed "请先配置LLM"), s1).

(** The reading step of the upload handler. *)
Definition load (file : UploadedFile) : M (list (list (string * jsval))) :=
  let filePath := path file in
  let ext := toLowerCase (path_extname (originalname file)) in
  if String.eqb ext ".csv" then readCSVFile filePath
  else if String.eqb ext ".xlsx" || String.eqb ext ".xls"
       then readExcelFile filePath
  else throw (Error "不支持的文件格式").

(** The object the upload handler stores for a table read from [file]. *)
Definition dataframe_of (file : UploadedFile) (table : list (list (string * jsval)))
  : Dataframe :=
  {| data := table;
     filename := originalname file;
     rows := length table;
     columns := if (0 <? length table)%nat
                then length (Object_keys (nth 0 table []))
                else 0%nat |}.

(** The key count of the first record, zero for an empty table. *)
Definition first_row_keys (table : list (list (string * jsval))) : nat :=
  match table with
  | [] => 0
  | first :: _ => length (Object_keys first)
  end.

(** When the first chunk of a connection was written. *)
Definition opened_at (conn : Connection) : Z :=
  match written conn with
  | (t, _) :: _ => t
  | [] => 0%Z
  end.

(** How many [heartbeat] and [status] events a connection was sent. *)
Definition heartbeats (conn : Connection) : nat :=
  length (times_of "heartbeat" (written conn)).

Definition statuses (conn : Connection) : nat :=
  length (times_of "status" (written conn)).

(** Every armed timer has a handle already given out, is not overdue, and is
    one of the two timers of a subscriber that has not disconnected. *)
Definition timers_ok (w : World) : Prop :=
  forall id tm,
    timers w !! id = Some tm ->
    id < next_timer w
    /\ (now w <= due tm)%Z
    /\ exists conn hb st,
         connections w !! target (callback tm) = Some conn
         /\ closed conn = false
         /\ close_listener conn = Some (hb, st)
         /\ (id = hb \/ id = st).

(** An open subscriber: its two timers are armed for the next multiple of
    their period after [opened_at], and what was written so far came at the
    multiples before. *)
Definition open_ok (w : World) (c : nat) (conn : Connection) : Prop :=
  let t0 := opened_at conn in
  written conn <> []
  /\ (exists hb st,
        close_listener conn = Some (hb, st)
        /\ hb <> st
        /\ timers w !! hb
           = Some {| callback := Heartbeat c; interval := 30000;
                     due := t0 + 30000 * (Z.of_nat (heartbeats conn) + 1) |}
        /\ timers w !! st
           = Some {| callback := SendStatus c; interval := 60000;
                     due := t0 + 60000 * Z.of_nat (statuses conn) |})
  /\ times_of "heartbeat" (written conn)
     = every 30000 (t0 + 30000) (heartbeats conn)
  /\ times_of "status" (written conn) = every 60000 t0 (statuses conn)
  /\ (t0 + 30000 * Z.of_nat (heartbeats conn) <= now w)%Z
  /\ (t0 + 60000 * (Z.of_nat (statuses conn) - 1) <= now w)%Z.

(** A subscriber that has disconnected: its two handles are no longer in
    the timer table, and will not be given out again. *)
Definition closed_ok (w : World) (conn : Connection) : Prop :=
  exists hb st,
    close_listener conn = Some (hb, st)
    /\ hb < next_timer w /\ st < next_timer w
    /\ timers w !! hb = None /\ timers w !! st = None.

(** The invariant of the process. *)
Definition Inv (w : World) : Prop :=
  timers_ok w
  /\ forall c conn,
       connections w !! c = Some conn ->
       if closed conn then closed_ok w conn else open_ok w c conn.

(** What the callback of a timer writes when it runs in [w]. *)
Definition fired_payload (cb : TimerCallback) (w : World) : jsval :=
  match cb with
  | Heartbeat _ => heartbeat_event (now w)
  | SendStatus _ => status_event (session w) (now w)
  end.

(** The connection after one more chunk. *)
Definition append_chunk (t : Z) (p : jsval) (conn : Connection) : Connection :=
  {| written := written conn ++ [(t, p)];
     close_listener := close_listener conn;
     closed := closed conn |}.

(** A handler body [m] relates every state to the state it leaves by [R]. *)
Definition respects {A} (R : State -> State -> Prop) (m : M A) : Prop :=
  forall s, R s (snd (m s)).

(** The dataset slot holds the same value. *)
Definition same_dataset (s s' : State) : Prop :=
  currentDataframe s' = currentDataframe s.

(** The backend slot holds the same value, or a handle the configurator
    returned. *)
Definition backend_step (s s' : State) : Prop :=
  currentLLM s' = currentLLM s
  \/ exists config, configureLLM config = inr (currentLLM s').

(** The subscribers that have not disconnected. *)
Definition open_connections (w : World) : gmap nat Connection :=
  filter (fun kv => closed (snd kv) = false) (connections w).

End Server.

(** ** Sample collaborators

    Small implementations of the interfaces, on which the statements below
    are run at concrete inputs. *)
Module Sample.

Definition decimal (z : Z) : string := NilZero.string_of_int (Z.to_int z).

(** Renders integral values in decimal, which is all the samples print. *)
Definition render_number (x : number) : string :=
  match x with
  | S754_zero _ => "0"
  | S754_infinity false => "Infinity"
  | S754_infinity true => "-Infinity"
  | S754_nan => "NaN"
  | S754_finite sign m e =>
      let magnitude := (if (0 <=? e)%Z then Z.pos m * 2 ^ e
                        else Z.pos m / 2 ^ (- e))%Z in
      decimal (if sign then - magnitude else magnitude)
  end.

Definition describe_nullish (v : jsval) : string :=
  match v with
  | JNull => "null"
  | _ => "undefined"
  end.

Definition destructure_message (k target : string) (v : jsval) : string :=
  "Cannot destructure property '" +:+ k +:+ "' of '" +:+ target
    +:+ "' as it is " +:+ describe_nullish v +:+ ".".

Definition read_message (k : string) (v : jsval) : string :=
  "Cannot read properties of " +:+ describe_nullish v
    +:+ " (reading '" +:+ k +:+ "')".

(** The suffix of [s] that starts at its last dot, if it has one. *)
Fixpoint last_dot_suffix (s : string) : option string :=
  match s with
  | EmptyString => None
  | String c rest =>
      match last_dot_suffix rest with
      | Some e => Some e
      | None => if Ascii.eqb c "." then Some s else None
      end
  end.

Definition extname (s : string) : string := default "" (last_dot_suffix s).

Definition lower (c : ascii) : ascii :=
  let n := nat_of_ascii c in
  if ((65 <=? n) && (n <=? 90))%nat then ascii_of_nat (n + 32) else c.

Fixpoint lowercase (s : string) : string :=
  match s with
  | EmptyString => EmptyString
  | String c rest => String (lower c) (lowercase rest)
  end.

Definition runtime : Runtime :=
  {| number_to_string := render_number;
     cannot_destructure := destructure_message;
     cannot_read_property := read_message;
     cannot_convert_to_primitive := "Cannot convert object to primitive value";
     toISOString := decimal;
     path_extname := extname;
     toLowerCase := lowercase |}.

Definition mcp_handler : MCPHandler :=
  {| initialize := fun _ => inr (JObj [("protocolVersion", JStr "2024-11-05")]);
     listTools := inr (JObj [("tools", JArr [])]) |}.

(** An engine that answers, one that answers without text, one that fails. *)
Definition analyzer : DataAnalyzer :=
  {| analyze := fun df _ _ =>
       inr (JObj [("answer", JStr (decimal (Z.of_nat (rows df)) +:+ " rows"))]) |}.

Definition silent_analyzer : DataAnalyzer :=
  {| analyze := fun _ _ _ => inr (JObj []) |}.

Definition failing_analyzer : DataAnalyzer :=
  {| analyze := fun _ _ _ => inl (Error "engine unavailable") |}.

(** A configurator that accepts every configuration, and one that rejects. *)
Definition llm_manager : LLMManager :=
  {| configureLLM := fun config =>
       inr (JObj [("provider", JStr "openai"); ("model", prop config "model")]) |}.

Definition failing_llm_manager : LLMManager :=
  {| configureLLM := fun _ => inl (Error "missing api key") |}.

(** The table [name,age / Alice,30 / Bob,25]. *)
Definition people : list (list (string * jsval)) :=
  [[("name", JStr "Alice"); ("age", JStr "30")];
   [("name", JStr "Bob"); ("age", JStr "25")]].

(** Seven one-column records. *)
Definition seven : list (list (string * jsval)) :=
  map (fun k => [("n", JStr (decimal (Z.of_nat k)))]) (seq 1 7).

(** Every CSV file holds [people], except [seven.csv] and the unreadable
    [broken.csv]; every workbook has the one sheet [Sheet1] holding
    [people]; removing a file succeeds. *)
Definition files : Files :=
  {| csv_stream := fun p =>
       if String.eqb p "uploads/broken.csv"
       then ([hd [] people], Some (Error "Invalid Record Length"))
       else if String.eqb p "uploads/seven.csv" then (seven, None)
       else (people, None);
     Sheet := list (list (string * jsval));
     XLSX_readFile := fun _ =>
       inr (mkWorkbook ["Sheet1"]
              (fun n => match n with Some "Sheet1" => Some people | _ => None end));
     XLSX_sheet_to_json := fun sh =>
       match sh with
       | Some t => inr t
       | None => inl (Error "Cannot read properties of undefined (reading '!ref')")
       end;
     fs_unlinkSync := fun _ => None |}.

(** A session with [people] loaded and no backend, and one with a backend
    as well. *)
Definition people_loaded : State :=
  {| currentDataframe :=
       Some {| data := people; filename := "people.csv"; rows := 2; columns := 2 |};
     currentLLM := JNull;
     calls := [] |}.

Definition people_and_backend : State :=
  {| currentDataframe := currentDataframe people_loaded;
     currentLLM := JObj [("provider", JStr "openai"); ("model", JStr "gpt-3.5")];
     calls := [] |}.

(** A session with a backend and no dataset. *)
Definition backend_only : State :=
  {| currentDataframe := None;
     currentLLM := JObj [("provider", JStr "openai"); ("model", JStr "gpt-3.5")];
     calls := [] |}.

(** [{ query: 'count rows', llm_config: { model: 'gpt-4' } }] *)
Definition args_with_config : jsval :=
  JObj [("query", JStr "count rows");
        ("llm_config", JObj [("model", JStr "gpt-4")])].

(** [{ query: 'count rows' }] *)
Definition args_plain : jsval := JObj [("query", JStr "count rows")].

Definition people_csv : UploadedFile :=
  {| originalname := "people.CSV"; path := "uploads/1f0e-people.CSV" |}.

Definition seven_csv : UploadedFile :=
  {| originalname := "seven.csv"; path := "uploads/seven.csv" |}.

Definition broken_csv : UploadedFile :=
  {| originalname := "broken.csv"; path := "uploads/broken.csv" |}.

(** What happens to subscriber 7 after it connects at time 1000: a
    heartbeat at 31000, a backend is configured, a status and a heartbeat at
    61000. Then it disconnects and time moves on. *)
Definition while_subscribed : list Label :=
  [LAdvance 31000; LFire 0;
   LRequest (PostConfigureLLM (JObj [("model", JStr "gpt-4")]));
   LAdvance 61000; LFire 1; LFire 0].

Definition then_disconnected : list Label :=
  while_subscribed ++ [LClose 7; LAdvance 100000].

Definition people_xlsx : UploadedFile :=
  {| originalname := "people.xlsx"; path := "uploads/77aa-people.xlsx" |}.

Definition empty_csv : UploadedFile :=
  {| originalname := "empty.csv"; path := "uploads/empty.csv" |}.

(** As [files], but every CSV file is empty. *)
Definition empty_files : Files :=
  {| csv_stream := fun _ => ([], None);
     Sheet := list (list (string * jsval));
     XLSX_readFile := fun _ => inr (mkWorkbook [] (fun _ => None));
     XLSX_sheet_to_json := fun sh =>
       match sh with
       | Some t => inr t
       | None => inl (Error "Cannot read properties of undefined (reading '!ref')")
       end;
     fs_unlinkSync := fun _ => None |}.

(** As [files], but the temporary file cannot be removed. *)
Definition locked_files : Files :=
  {| csv_stream := fun _ => (people, None);
     Sheet := list (list (string * jsval));
     XLSX_readFile := fun _ =>
       inr (mkWorkbook ["Sheet1"]
              (fun n => match n with Some "Sheet1" => Some people | _ => None end));
     XLSX_sheet_to_json := fun sh =>
       match sh with
       | Some t => inr t
       | None => inl (Error "Cannot read properties of undefined (reading '!ref')")
       end;
     fs_unlinkSync := fun _ => Some (Error "EPERM: operation not permitted, unlink") |}.

(** A session, then two subscribers, then the first of them gone. *)
Definition busy_session : list Label :=
  [LRequest (PostUpload (Some seven_csv));
   LRequest (PostConfigureLLM (JObj [("model", JStr "gpt-4")]));
   LRequest (PostAnalyze args_plain)].

Definition two_subscribers : list Label :=
  [LConnect 7; LAdvance 2000; LConnect 8; LAdvance 31000; LFire 0].

(** The process after a run from its start at time 1000. *)
Definition world_after (ls : list Label) : World :=
  default (initial_world 1000)
    (run (RT := runtime) (MH := mcp_handler) (DA := analyzer)
         (LM := llm_manager) (FS := files) ls (initial_world 1000)).

End Sample.

Section Properties.

Context `{RT : Runtime} `{MH : MCPHandler} `{DA : DataAnalyzer}
        `{LM : LLMManager} `{FS : Files}.

(** Opens the monad operations of a handler body. *)
Ltac unfold_monad :=
  unfold try_respond, try_catch, bind, ret, throw, lift, modify, get_state,
    destructurable, read_prop in *.

(** ** Properties of the dispatch *)

Lemma str_contains_suffix (pre needle : string) :
  str_contains needle (pre +:+ needle).
Proof.
  exists pre, "". f_equal.
  induction needle as [|ch rest IH]; [reflexivity|].
  change (String ch rest = String ch (rest +:+ "")). by rewrite <- IH.
Qed.


Lemma bind_inr {A B} (m : M A) (k : A -> M B) (s s' : State) (b : B) :
  bind m k s = (inr b, s') ->
  exists a s1, m s = (inr a, s1) /\ k a s1 = (inr b, s').
Proof.
  unfold bind. destruct (m s) as [[e|a] s1]; [done|]. intros Hk. by exists a, s1.
Qed.

(** X1: once the handler of [/mcp] runs on a request body, whatever that
    body is, it answers with exactly one of the two envelopes: 200 with
    [{result}], or 400 with [{error: {code: -1, message}}]. Every failure
    inside the dispatch, a thrown TypeError included, ends in the [catch]
    of the route. (A body that [express.json] rejects does not reach the
    handler.) *)
Lemma post_mcp_status (req_body : jsval) (s : State) :
  (status (fst (post_mcp req_body s)) = 200%Z
   /\ exists result, body (fst (post_mcp req_body s)) = JObj [("result", result)])
  \/ (status (fst (post_mcp req_body s)) = 400%Z
      /\ exists msg, body (fst (post_mcp req_body s)) = mcp_error msg).
Proof.
  unfold post_mcp, try_respond.
  match goal with
  | |- context [match ?m s with _ => _ end] => destruct (m s) as [[e|r] s'] eqn:Hrun
  end; [right; split; [done|by eexists]|left].
  apply bind_inr in Hrun as (_ & s1 & _ & Hrun).
  apply bind_inr in Hrun as (_ & s2 & _ & Hrun).
  apply bind_inr in Hrun as (result & s3 & _ & Hret).
  injection Hret as <- _. split; [done|by eexists].
Qed.

(** What [/mcp] does with a [tools/call]. *)
Lemma post_mcp_tools_call_eq (req_body : jsval) (s : State) :
  nullish req_body = false ->
  prop req_body "method" = JStr "tools/call" ->
  post_mcp req_body s
  = match handleToolCall (params_of req_body) s with
    | (inl e, s1) => (res_status_json 400 (mcp_error (message e)), s1)
    | (inr result, s1) => (res_json (JObj [("result", result)]), s1)
    end.
Proof.
  intros Hbody Hmethod. unfold post_mcp. fold (params_of req_body).
  unfold_monad. rewrite Hbody, Hmethod. simpl.
  by destruct (handleToolCall (params_of req_body) s) as [[e|result] s1].
Qed.

(** C7: a tool name that is neither [analyze_data] nor [configure_llm] makes
    [handleToolCall] throw, and [/mcp] answers a [tools/call] for it with the
    thrown message in a 400 error envelope. The message is the fixed prefix
    followed by the requested name as a template literal renders it, so for
    a name that is a string it contains that string. (A name no template
    literal can render, an object with an own [toString] key, makes the
    routing fail with the TypeError's message.) *)
Theorem handleToolCall_unknown_tool (params : jsval) (s : State) :
  nullish params = false ->
  known_tool (prop params "name") = false ->
  let msg := match to_string (prop params "name") with
             | inr shown => "未知的工具: " +:+ shown
             | inl e => message e
             end in
  handleToolCall params s
  = (inl (Error msg), record_call (EnterHandleToolCall params) s)
  /\ (forall shown,
        to_string (prop params "name") = inr shown ->
        msg = "未知的工具: " +:+ shown /\ str_contains shown msg)
  /\ (forall tool,
        prop params "name" = JStr tool ->
        msg = "未知的工具: " +:+ tool /\ str_contains tool msg)
  /\ (forall req_body,
        nullish req_body = false ->
        prop req_body "method" = JStr "tools/call" ->
        params_of req_body = params ->
        post_mcp req_body s
        = (res_status_json 400 (mcp_error msg),
           record_call (EnterHandleToolCall params) s)).
Proof.
  intros Hparams Hknown msg.
  unfold known_tool in Hknown.
  apply orb_false_elim in Hknown as [Hana Hcfg].
  assert (Hrun : handleToolCall params s
                 = (inl (Error msg), record_call (EnterHandleToolCall params) s)).
  { unfold handleToolCall. unfold_monad. subst msg.
    rewrite Hparams, Hana, Hcfg. simpl.
    by destruct (to_string (prop params "name")) as [[e]|shown]. }
  split; [exact Hrun|].
  assert (Hshown : forall shown,
            to_string (prop params "name") = inr shown ->
            msg = "未知的工具: " +:+ shown /\ str_contains shown msg).
  { intros shown Hshown. subst msg. rewrite Hshown.
    split; [done|apply str_contains_suffix]. }
  split; [exact Hshown|]. split.
  - intros tool Htool. apply Hshown. by rewrite Htool.
  - intros req_body Hbody Hmethod Hp.
    by rewrite (post_mcp_tools_call_eq _ _ Hbody Hmethod), Hp, Hrun.
Qed.

(** C2: [handleAnalyzeData] checks the dataset first and the backend second.
    Without a dataset it fails with the upload-a-file-first message whatever
    [currentLLM] and the arguments hold, and so never with the
    configure-first message; with a dataset, no usable [currentLLM] and no
    inline configuration it fails with the configure-first message. Neither
    failure calls a collaborator. *)
Theorem handleAnalyzeData_precondition_order (args : jsval) (s : State) :
  nullish args = false ->
  (currentDataframe s = None ->
     handleAnalyzeData args s
     = (inl (Error "数据分析失败: 请先上传数据文件"),
        record_call (EnterHandleAnalyzeData args) s)
     /\ fst (handleAnalyzeData args s) <> inl (Error "数据分析失败: 请先配置LLM"))
  /\ (forall df,
        currentDataframe s = Some df ->
        truthy (currentLLM s) = false ->
        truthy (prop args "llm_config") = false ->
        handleAnalyzeData args s
        = (inl (Error "数据分析失败: 请先配置LLM"),
           record_call (EnterHandleAnalyzeData args) s)).
Proof.
  intros Hargs. split.
  - intros Hnone.
    assert (Hrun : handleAnalyzeData args s
                   = (inl (Error "数据分析失败: 请先上传数据文件"),
                      record_call (EnterHandleAnalyzeData args) s)).
    { unfold handleAnalyzeData. unfold_monad. rewrite Hargs. simpl.
      rewrite Hnone. reflexivity. }
    split; [exact Hrun|]. rewrite Hrun. simpl. discriminate.
  - intros df Hdf Hllm Hcfg.
    unfold handleAnalyzeData. unfold_monad. rewrite Hargs. simpl.
    rewrite Hdf, Hcfg. simpl. rewrite Hllm. reflexivity.
Qed.

(** C10: [/analyze] rejects every falsy [query] ([undefined], [null],
    [false], [0], [NaN], the empty string) with status 400 and the
    missing-query error, without entering [handleAnalyzeData]: the state,
    its record of calls included, is untouched. The empty string and an
    absent [query] are two such cases. *)
Theorem post_analyze_falsy_query (req_body : jsval) (s : State) :
  nullish req_body = false ->
  truthy (prop req_body "query") = false ->
  post_analyze req_body s
  = (res_status_json 400%Z (error_body "请提供分析查询"), s)
  /\ post_analyze req_body s = post_analyze (JObj []) s
  /\ post_analyze req_body s = post_analyze (JObj [("query", JStr "")]) s.
Proof.
  intros Hbody Hquery.
  assert (Hrun : post_analyze req_body s
                 = (res_status_json 400%Z (error_body "请提供分析查询"), s)).
  { unfold post_analyze. unfold_monad. rewrite Hbody, Hquery. reflexivity. }
  rewrite Hrun. repeat split; reflexivity.
Qed.

(** *** [handleAnalyzeData] once a dataset is loaded *)

Lemma handleAnalyzeData_with_dataset (args : jsval) (s : State) (df : Dataframe) :
  nullish args = false ->
  currentDataframe s = Some df ->
  handleAnalyzeData args s
  = let s0 := record_call (EnterHandleAnalyzeData args) s in
    let llm_config := prop args "llm_config" in
    if truthy llm_config then
      let s1 := record_call (CallConfigureLLM llm_config) s0 in
      match configureLLM llm_config with
      | inl e => (inl (analysis_failed (message e)), s1)
      | inr llm => analysis_from df (prop args "query") (set_currentLLM llm s1)
      end
    else analysis_from df (prop args "query") s0.
Proof.
  intros Hargs Hdf. unfold handleAnalyzeData, analysis_from. unfold_monad.
  rewrite Hargs. simpl. rewrite Hdf.
  destruct (truthy (prop args "llm_config")); simpl.
  - destruct (configureLLM (prop args "llm_config")) as [e|llm]; simpl; [done|].
    destruct (truthy llm); simpl; [|done].
    destruct (analyze df (prop args "query") llm) as [e|result]; simpl; [done|].
    by destruct (nullish result).
  - destruct (truthy (currentLLM s)); simpl; [|done].
    destruct (analyze df (prop args "query") (currentLLM s)) as [e|result];
      simpl; [done|].
    by destruct (nullish result).
Qed.

Lemma handleAnalyzeData_without_dataset (args : jsval) (s : State) :
  currentDataframe s = None ->
  handleAnalyzeData args s
  = (inl (analysis_failed
            (if nullish args then cannot_destructure "query" "args" args
             else "请先上传数据文件")),
     record_call (EnterHandleAnalyzeData args) s).
Proof.
  intros Hnone. unfold handleAnalyzeData. unfold_monad.
  destruct (nullish args); simpl; [done|]. by rewrite Hnone.
Qed.

(** Entering [handleAnalyzeData] is always recorded: a state whose record
    of calls has not grown is one in which it was not called. *)
Lemma handleAnalyzeData_records_entry (args : jsval) (s : State) :
  exists rest,
    calls (snd (handleAnalyzeData args s))
    = calls s ++ EnterHandleAnalyzeData args :: rest.
Proof.
  unfold handleAnalyzeData. unfold_monad. simpl.
  destruct (nullish args); simpl; [by eexists|].
  destruct (currentDataframe s) as [df|]; [|by eexists].
  destruct (truthy (prop args "llm_config")); simpl.
  - destruct (configureLLM (prop args "llm_config")) as [e|llm]; simpl.
    { eexists. by rewrite <- app_assoc. }
    destruct (truthy llm); simpl; [|eexists; by rewrite <- app_assoc].
    destruct (analyze df (prop args "query") llm) as [e|result]; simpl.
    { eexists. by rewrite <- !app_assoc. }
    destruct (nullish result); simpl; eexists; by rewrite <- !app_assoc.
  - destruct (truthy (currentLLM s)); simpl; [|by eexists].
    destruct (analyze df (prop args "query") (currentLLM s)) as [e|result]; simpl.
    { eexists. by rewrite <- !app_assoc. }
    destruct (nullish result); simpl; eexists; by rewrite <- !app_assoc.
Qed.

Lemma analysis_from_state (df : Dataframe) (query : jsval) (s1 : State) :
  currentLLM (snd (analysis_from df query s1)) = currentLLM s1
  /\ currentDataframe (snd (analysis_from df query s1)) = currentDataframe s1
  /\ calls (snd (analysis_from df query s1))
     = calls s1 ++ (if truthy (currentLLM s1)
                    then [CallAnalyze df query (currentLLM s1)] else []).
Proof.
  unfold analysis_from. destruct (truthy (currentLLM s1)); simpl.
  - destruct (analyze df query (currentLLM s1)) as [e|result]; simpl; [done|].
    by destruct (nullish result).
  - by rewrite app_nil_r.
Qed.

Lemma analysis_from_failure (df : Dataframe) (query : jsval) (s1 : State) (e : exn) :
  fst (analysis_from df query s1) = inl e ->
  exists original, e = analysis_failed original.
Proof.
  unfold analysis_from. destruct (truthy (currentLLM s1)); simpl.
  - destruct (analyze df query (currentLLM s1)) as [e'|result]; simpl.
    + intros [= <-]. eauto.
    + destruct (nullish result); simpl; [|done]. intros [= <-]. eauto.
  - intros [= <-]. eauto.
Qed.

(** C3 (as the code has it): [handleAnalyzeData] looks at the dataset before
    it looks at [llm_config]. With a dataset loaded, an inline [llm_config]
    is passed to [configureLLM] and the handle it returns is stored in
    [currentLLM] whatever was there before; it stays there when the call
    ends, however the analysis goes, and the next call without inline
    configuration runs the engine with it. With no dataset loaded the call
    fails first: [configureLLM] is not called and [currentLLM] is not
    written. *)
Theorem handleAnalyzeData_inline_config (args : jsval) (s : State) (llm : jsval) :
  nullish args = false ->
  truthy (prop args "llm_config") = true ->
  configureLLM (prop args "llm_config") = inr llm ->
  (forall df,
     currentDataframe s = Some df ->
     let s' := snd (handleAnalyzeData args s) in
     currentLLM s' = llm
     /\ currentDataframe s' = Some df
     /\ (exists rest,
           calls s' = calls s ++ EnterHandleAnalyzeData args
                        :: CallConfigureLLM (prop args "llm_config") :: rest)
     /\ (forall args2,
           nullish args2 = false ->
           truthy (prop args2 "llm_config") = false ->
           truthy llm = true ->
           let s'' := snd (handleAnalyzeData args2 s') in
           currentLLM s'' = llm
           /\ calls s'' = calls s' ++ [EnterHandleAnalyzeData args2;
                                       CallAnalyze df (prop args2 "query") llm]))
  /\ (currentDataframe s = None ->
      snd (handleAnalyzeData args s) = record_call (EnterHandleAnalyzeData args) s).
Proof.
  intros Hargs Hcfg Hllm. split.
  - intros df Hdf s'.
    assert (Hs' : s' = snd (analysis_from df (prop args "query")
                    (set_currentLLM llm
                       (record_call (CallConfigureLLM (prop args "llm_config"))
                          (record_call (EnterHandleAnalyzeData args) s))))).
    { subst s'. rewrite (handleAnalyzeData_with_dataset _ _ df Hargs Hdf).
      simpl. by rewrite Hcfg, Hllm. }
    pose proof (analysis_from_state df (prop args "query")
                  (set_currentLLM llm
                     (record_call (CallConfigureLLM (prop args "llm_config"))
                        (record_call (EnterHandleAnalyzeData args) s))))
      as (Hl & Hd & Hc).
    rewrite <- Hs' in Hl, Hd, Hc. simpl in Hl, Hd, Hc.
    split; [exact Hl|]. split; [by rewrite Hd|]. split.
    + eexists. rewrite Hc, <- !app_assoc. simpl. reflexivity.
    + intros args2 Hargs2 Hcfg2 Htruthy s''.
      assert (Hd' : currentDataframe s' = Some df) by (by rewrite Hd).
      subst s''. rewrite (handleAnalyzeData_with_dataset _ _ df Hargs2 Hd').
      simpl. rewrite Hcfg2.
      pose proof (analysis_from_state df (prop args2 "query")
                    (record_call (EnterHandleAnalyzeData args2) s'))
        as (Hl2 & _ & Hc2).
      simpl in Hl2, Hc2. rewrite Hl in Hl2, Hc2. rewrite Htruthy in Hc2.
      split; [exact Hl2|]. rewrite Hc2, <- app_assoc. reflexivity.
  - intros Hnone. rewrite (handleAnalyzeData_without_dataset _ _ Hnone). reflexivity.
Qed.

(** C5 (as the code has it): every failure inside [handleAnalyzeData] is
    thrown again with the one prefix of that function in front of the
    original message, be it a failure of the inline [configureLLM] call or
    of the engine; the other prefix belongs to [handleConfigureLLM], which
    puts it in front of the message of a failed [configureLLM] call. *)
Theorem handleAnalyzeData_failure_prefix (args : jsval) (s : State) :
  (forall e,
     fst (handleAnalyzeData args s) = inl e ->
     exists original, message e = "数据分析失败: " +:+ original)
  /\ (forall df e,
        nullish args = false ->
        currentDataframe s = Some df ->
        truthy (prop args "llm_config") = true ->
        configureLLM (prop args "llm_config") = inl e ->
        fst (handleAnalyzeData args s)
        = inl (Error ("数据分析失败: " +:+ message e)))
  /\ (forall df e,
        nullish args = false ->
        currentDataframe s = Some df ->
        truthy (prop args "llm_config") = false ->
        truthy (currentLLM s) = true ->
        analyze df (prop args "query") (currentLLM s) = inl e ->
        fst (handleAnalyzeData args s)
        = inl (Error ("数据分析失败: " +:+ message e)))
  /\ (forall df llm e,
        nullish args = false ->
        currentDataframe s = Some df ->
        truthy (prop args "llm_config") = true ->
        configureLLM (prop args "llm_config") = inr llm ->
        truthy llm = true ->
        analyze df (prop args "query") llm = inl e ->
        fst (handleAnalyzeData args s)
        = inl (Error ("数据分析失败: " +:+ message e)))
  /\ (forall e,
        configureLLM args = inl e ->
        fst (handleConfigureLLM args s)
        = inl (Error ("LLM配置失败: " +:+ message e))).
Proof.
  split; [|split; [|split; [|split]]].
  - intros e He. destruct (currentDataframe s) as [df|] eqn:Hdf.
    + destruct (nullish args) eqn:Hargs.
      * revert He. unfold handleAnalyzeData. unfold_monad. rewrite Hargs. simpl.
        intros [= <-]. eauto.
      * rewrite (handleAnalyzeData_with_dataset _ _ df Hargs Hdf) in He.
        simpl in He. destruct (truthy (prop args "llm_config")).
        -- destruct (configureLLM (prop args "llm_config")) as [e'|llm].
           ++ simpl in He. injection He as <-. eauto.
           ++ apply analysis_from_failure in He as [original ->]. eauto.
        -- apply analysis_from_failure in He as [original ->]. eauto.
    + rewrite (handleAnalyzeData_without_dataset _ _ Hdf) in He.
      simpl in He. injection He as <-. eauto.
  - intros df e Hargs Hdf Hcfg Hfail.
    rewrite (handleAnalyzeData_with_dataset _ _ df Hargs Hdf). simpl.
    by rewrite Hcfg, Hfail.
  - intros df e Hargs Hdf Hcfg Hllm Hfail.
    rewrite (handleAnalyzeData_with_dataset _ _ df Hargs Hdf). simpl.
    rewrite Hcfg. unfold analysis_from. simpl. by rewrite Hllm, Hfail.
  - intros df llm e Hargs Hdf Hcfg Hok Hllm Hfail.
    rewrite (handleAnalyzeData_with_dataset _ _ df Hargs Hdf). simpl.
    rewrite Hcfg, Hok. unfold analysis_from. simpl. by rewrite Hllm, Hfail.
  - intros e Hfail. unfold handleConfigureLLM. unfold_monad. simpl.
    by rewrite Hfail.
Qed.

(** ** Properties of [/upload] *)

Lemma dataframe_of_columns (file : UploadedFile) (table : list (list (string * jsval))) :
  columns (dataframe_of file table) = first_row_keys table.
Proof. by destruct table. Qed.

Lemma fold_push {A} (l acc : list A) :
  fold_left (fun results x => results ++ [x]) l acc = acc ++ l.
Proof.
  revert acc. induction l as [|x l IH]; intros acc; simpl.
  - by rewrite app_nil_r.
  - by rewrite IH, <- app_assoc.
Qed.

(** [readCSVFile] resolves with exactly the records the stream emitted. *)
Lemma readCSVFile_eq (filePath : string) (s : State) :
  readCSVFile filePath s
  = (match csv_stream filePath with
     | (emitted, None) => inr emitted
     | (_, Some error) => inl error
     end, record_call (CallReadCSVFile filePath) s).
Proof.
  unfold readCSVFile. unfold_monad. simpl.
  destruct (csv_stream filePath) as [emitted [error|]]; [done|].
  by rewrite fold_push.
Qed.

Lemma readExcelFile_state (filePath : string) (s : State) :
  snd (readExcelFile filePath s) = record_call (CallReadExcelFile filePath) s
  /\ forall s0, fst (readExcelFile filePath s0) = fst (readExcelFile filePath s).
Proof.
  unfold readExcelFile. unfold_monad. simpl.
  destruct (XLSX_readFile filePath) as [e|workbook]; simpl; [done|].
  by destruct (XLSX_sheet_to_json _).
Qed.

(** Reading writes neither global, and what it reads does not depend on them. *)
Lemma load_state (file : UploadedFile) (s : State) :
  currentDataframe (snd (load file s)) = currentDataframe s
  /\ currentLLM (snd (load file s)) = currentLLM s
  /\ forall s0, fst (load file s0) = fst (load file s).
Proof.
  unfold load.
  destruct (String.eqb _ ".csv").
  - rewrite readCSVFile_eq. repeat split. intros s0. by rewrite readCSVFile_eq.
  - destruct (_ || _).
    + destruct (readExcelFile_state (path file) s) as [-> Hres]. done.
    + done.
Qed.

Lemma upload_handler_eq (file : UploadedFile) (s : State) :
  upload_handler (Some file) s
  = match load file s with
    | (inl e, s1) => (res_status_json 500%Z (error_body (message e)), s1)
    | (inr table, s1) =>
        let s2 := record_call (CallUnlinkSync (path file))
                    (set_currentDataframe (dataframe_of file table) s1) in
        match fs_unlinkSync (path file) with
        | Some e => (res_status_json 500%Z (error_body (message e)), s2)
        | None =>
            (res_json (upload_ok (originalname file) (length table)
                         (first_row_keys table) (take 5 table)), s2)
        end
    end.
Proof.
  unfold upload_handler. fold (load file). unfold try_respond, bind at 1.
  destruct (load file s) as [[e|table] s1]; [done|].
  unfold_monad. simpl. fold (dataframe_of file table).
  destruct (fs_unlinkSync (path file)); [done|]. simpl.
  by rewrite <- (dataframe_of_columns file table).
Qed.

(** A 200 from [/upload] means: a file was sent, the filter let it through,
    it was read, and the temporary file was removed. *)
Lemma post_upload_200 (file : option UploadedFile) (s : State) :
  status (fst (post_upload file s)) = 200%Z ->
  exists f table,
    file = Some f
    /\ fst (load f s) = inr table
    /\ post_upload file s
       = (res_json (upload_ok (originalname f) (length table)
                      (first_row_keys table) (take 5 table)),
          record_call (CallUnlinkSync (path f))
            (set_currentDataframe (dataframe_of f table) (snd (load f s)))).
Proof.
  unfold post_upload. destruct file as [f|]; [|done].
  destruct (fileFilter f); [done|].
  rewrite upload_handler_eq.
  destruct (load f s) as [[e|table] s1] eqn:Hload; [done|]. simpl.
  destruct (fs_unlinkSync (path f)); [done|]. intros _.
  exists f, table. by rewrite Hload.
Qed.

(** C6: an upload answered with 200 leaves in [currentDataframe] the table
    just read and nothing of what was there before: the same upload leaves
    the same dataset from every earlier state. Its [rows] is the number of
    records and its [columns] the number of keys of the first record, zero
    for an empty table. *)
Theorem post_upload_replaces_dataset (file : option UploadedFile) (s : State) :
  status (fst (post_upload file s)) = 200%Z ->
  exists f table d,
    file = Some f
    /\ fst (load f s) = inr table
    /\ currentDataframe (snd (post_upload file s)) = Some d
    /\ data d = table
    /\ filename d = originalname f
    /\ rows d = length (data d)
    /\ columns d = match data d with
                   | [] => 0
                   | first :: _ => length (Object_keys first)
                   end
    /\ (forall s0, currentDataframe (snd (post_upload file s0)) = Some d).
Proof.
  intros H200. destruct (post_upload_200 _ _ H200) as (f & table & -> & Hload & Hrun).
  exists f, table, (dataframe_of f table). rewrite Hrun. simpl.
  repeat split.
  - done.
  - by destruct table.
  - intros s0. unfold post_upload in *.
    destruct (fileFilter f); [done|]. rewrite upload_handler_eq in *.
    destruct (load_state f s) as (_ & _ & Hindep).
    specialize (Hindep s0). rewrite Hload in Hindep.
    destruct (load f s0) as [[e|table0] s1]; simpl in Hindep; [done|].
    injection Hindep as ->.
    destruct (load f s) as [[e|table'] s1']; [done|].
    simpl in H200. by destruct (fs_unlinkSync (path f)).
Qed.

(** C8: the body of a 200 from [/upload] is the object with the keys
    [message], [filename], [rows], [columns], [preview], in which [preview]
    holds the first five records of the table read, all of them when there
    are at most five; and when reading fails the answer is a 500 with the
    body [{error}] carrying the message of the failure. *)
Theorem post_upload_response (file : option UploadedFile) (s : State) :
  (status (fst (post_upload file s)) = 200%Z ->
   exists f table,
     file = Some f
     /\ fst (load f s) = inr table
     /\ currentDataframe (snd (post_upload file s)) = Some (dataframe_of f table)
     /\ body (fst (post_upload file s))
        = JObj [("message", JStr "文件上传成功");
                ("filename", JStr (originalname f));
                ("rows", JNum (number_of_nat (length table)));
                ("columns", JNum (number_of_nat (first_row_keys table)));
                ("preview", JArr (map JObj (take 5 table)))]
     /\ length (take 5 table) = Nat.min 5 (length table)
     /\ (forall i, i < 5 -> take 5 table !! i = table !! i)
     /\ (length table <= 5 -> take 5 table = table))
  /\ (forall f e,
        file = Some f ->
        fileFilter f = inr tt ->
        fst (load f s) = inl e ->
        fst (post_upload file s) = res_status_json 500%Z (error_body (message e))).
Proof.
  split.
  - intros H200. destruct (post_upload_200 _ _ H200) as (f & table & -> & Hload & Hrun).
    exists f, table. rewrite Hrun.
    do 4 (split; [done|]). split; [apply length_take|]. split.
    + intros i Hi. by apply lookup_take_lt.
    + intros Hlen. by apply take_ge.
  - intros f e -> Hfilter Hload. unfold post_upload. rewrite Hfilter.
    rewrite upload_handler_eq.
    destruct (load f s) as [[e'|table] s1]; simpl in Hload; [|done].
    by injection Hload as ->.
Qed.

(** C9: when reading the uploaded file fails, [/upload] answers 500 and
    [currentDataframe] (and [currentLLM]) hold what they held before: the
    assignment comes after the read. Past the filter the body is [{error}]
    with the message of the failure. *)
Theorem post_upload_load_failure (f : UploadedFile) (s : State) (e : exn) :
  fst (load f s) = inl e ->
  status (fst (post_upload (Some f) s)) = 500%Z
  /\ currentDataframe (snd (post_upload (Some f) s)) = currentDataframe s
  /\ currentLLM (snd (post_upload (Some f) s)) = currentLLM s
  /\ (fileFilter f = inr tt ->
      body (fst (post_upload (Some f) s)) = error_body (message e)).
Proof.
  intros Hload. unfold post_upload.
  destruct (fileFilter f) as [rejected|[]]; [done|].
  rewrite upload_handler_eq.
  destruct (load_state f s) as (Hd & Hl & _).
  destruct (load f s) as [[e'|table] s1]; simpl in *; [|done].
  by injection Hload as ->.
Qed.

(** X16, for contrast with C9: a 500 from [/upload] does not by itself
    mean the dataset is unchanged. When the read succeeds and removing the
    temporary file then throws, the new table is already stored. *)
Lemma post_upload_unlink_failure (f : UploadedFile) (s : State)
    (table : list (list (string * jsval))) (e : exn) :
  fileFilter f = inr tt ->
  fst (load f s) = inr table ->
  fs_unlinkSync (path f) = Some e ->
  status (fst (post_upload (Some f) s)) = 500%Z
  /\ currentDataframe (snd (post_upload (Some f) s)) = Some (dataframe_of f table).
Proof.
  intros Hfilter Hload Hunlink. unfold post_upload. rewrite Hfilter.
  rewrite upload_handler_eq.
  destruct (load f s) as [[e'|table'] s1]; simpl in Hload; [done|].
  injection Hload as ->. simpl. by rewrite Hunlink.
Qed.

(** ** Properties of [/sse] *)

(** The world [get_sse] leaves, spelled out. *)
Lemma get_sse_eq (c : nat) (w : World) :
  get_sse c w
  = {| session := session w; now := now w;
       timers :=
         <[S (next_timer w) := {| callback := SendStatus c; interval := 60000;
                                  due := now w + 60000 |}]>
           (<[next_timer w := {| callback := Heartbeat c; interval := 30000;
                                 due := now w + 30000 |}]> (timers w));
       next_timer := S (S (next_timer w));
       connections :=
         <[c := {| written := [(now w, connection_event (now w));
                               (now w, status_event (session w) (now w))];
                   close_listener := Some (next_timer w, S (next_timer w));
                   closed := false |}]> (connections w) |}.
Proof.
  unfold get_sse, req_on_close, setInterval, sendStatus, res_write. simpl.
  f_equal. by rewrite !alter_insert_eq.
Qed.

Lemma times_of_snoc (type : string) (chunks : list (Z * jsval)) (t : Z) (p : jsval) :
  times_of type (chunks ++ [(t, p)])
  = times_of type chunks
      ++ (if strict_eq_str (prop p "type") type then [t] else []).
Proof.
  unfold times_of. rewrite List.filter_app, map_app. simpl.
  by destruct (strict_eq_str (prop p "type") type).
Qed.

Lemma every_snoc (period start : Z) (n : nat) :
  every period start (S n)
  = every period start n ++ [(start + period * Z.of_nat n)%Z].
Proof. unfold every. by rewrite seq_S, map_app. Qed.

Lemma first_chunks_times (s : State) (t : Z) :
  let chunks := [(t, connection_event t); (t, status_event s t)] in
  times_of "connection" chunks = [t]
  /\ times_of "heartbeat" chunks = []
  /\ times_of "status" chunks = [t].
Proof. done. Qed.

Lemma Inv_initial (t : Z) : Inv (initial_world t).
Proof.
  split.
  - intros id tm Hid. simpl in Hid. by rewrite lookup_empty in Hid.
  - intros c conn Hc. simpl in Hc. by rewrite lookup_empty in Hc.
Qed.

Lemma Inv_connect (c : nat) (w : World) :
  Inv w -> connections w !! c = None -> Inv (get_sse c w).
Proof.
  intros [Ht Hc] Hfresh. rewrite get_sse_eq. split.
  - intros id tm Hid. simpl in Hid |- *.
    apply lookup_insert_Some in Hid as [[<- <-]|[Hne Hid]].
    { split; [lia|]. split; [simpl; lia|]. simpl.
      eexists _, _, _. rewrite lookup_insert_eq. eauto. }
    apply lookup_insert_Some in Hid as [[<- <-]|[Hne' Hid]].
    { split; [lia|]. split; [simpl; lia|]. simpl.
      eexists _, _, _. rewrite lookup_insert_eq. eauto. }
    destruct (Ht id tm Hid) as (Hlt & Hdue & conn & hb & st & Hconn & Hrest).
    split; [lia|]. split; [done|]. exists conn, hb, st.
    rewrite lookup_insert_ne; [done|]. intros Heq. congruence.
  - intros c' conn' Hc'. simpl in Hc'.
    apply lookup_insert_Some in Hc' as [[<- <-]|[Hne Hc']].
    + destruct (first_chunks_times (session w) (now w)) as (_ & Hhb & Hst).
      unfold open_ok, heartbeats, statuses, opened_at.
      cbn [closed written close_listener timers now]. rewrite Hhb, Hst.
      cbn [length every seq map].
      split; [done|]. split.
      { eexists _, _. split; [done|]. split; [lia|].
        rewrite lookup_insert_ne, lookup_insert_eq, lookup_insert_eq by lia.
        split; do 2 f_equal; lia. }
      split; [done|]. split; [f_equal; lia|]. lia.
    + specialize (Hc c' conn' Hc'). destruct (closed conn').
      * destruct Hc as (hb & st & Hl & Hhb & Hst & Hnhb & Hnst).
        exists hb, st. simpl. rewrite !lookup_insert_ne by lia. repeat split; auto; lia.
      * destruct Hc as (Hw & (hb & st & Hl & Hne' & Hhb & Hst) & Hrest).
        split; [done|]. split; [|done].
        exists hb, st. simpl.
        pose proof (Ht _ _ Hhb) as (? & _). pose proof (Ht _ _ Hst) as (? & _).
        rewrite !lookup_insert_ne by lia. done.
Qed.

Lemma Inv_close (c : nat) (conn : Connection) (w : World) :
  Inv w ->
  connections w !! c = Some conn ->
  closed conn = false ->
  Inv (on_close c conn w).
Proof.
  intros [Ht Hc] Hconn Hopen.
  pose proof (Hc c conn Hconn) as Hok. rewrite Hopen in Hok.
  destruct Hok as (_ & (hb & st & Hl & Hne & Hhb & Hst) & _).
  unfold on_close, clearInterval. rewrite Hl. split.
  - intros id tm Hid. cbn [timers next_timer now connections] in *.
    apply lookup_delete_Some in Hid as [Hne_st Hid].
    apply lookup_delete_Some in Hid as [Hne_hb Hid].
    destruct (Ht id tm Hid) as (Hlt & Hdue & conn' & hb' & st' & Hconn' & Ho' & Hl' & Hor).
    split; [done|]. split; [done|]. exists conn', hb', st'.
    rewrite lookup_insert_ne; [done|].
    intros Heq. rewrite <- Heq, Hconn in Hconn'. injection Hconn' as <-.
    rewrite Hl in Hl'. injection Hl' as <- <-. by destruct Hor.
  - intros c' conn' Hc'. cbn [timers next_timer now connections] in *.
    apply lookup_insert_Some in Hc' as [[<- <-]|[Hne' Hc']].
    + cbn [closed]. exists hb, st. cbn [close_listener next_timer timers].
      pose proof (Ht _ _ Hhb) as (? & _). pose proof (Ht _ _ Hst) as (? & _).
      rewrite lookup_delete_ne, !lookup_delete_eq by done. done.
    + specialize (Hc c' conn' Hc'). destruct (closed conn').
      * destruct Hc as (hb' & st' & Hl' & ? & ? & Hnhb & Hnst).
        exists hb', st'. cbn [next_timer timers].
        repeat split; try done; apply lookup_delete_None; right;
          apply lookup_delete_None; by right.
      * destruct Hc as (Hw & (hb' & st' & Hl' & Hne'' & Hhb' & Hst') & Hrest).
        split; [done|]. split; [|done].
        exists hb', st'. cbn [timers].
        assert (hb' <> hb) by (intros ->; rewrite Hhb in Hhb'; congruence).
        assert (hb' <> st) by (intros ->; rewrite Hst in Hhb'; congruence).
        assert (st' <> hb) by (intros ->; rewrite Hhb in Hst'; congruence).
        assert (st' <> st) by (intros ->; rewrite Hst in Hst'; congruence).
        rewrite !lookup_delete_ne by done. done.
Qed.

Lemma fire_eq (id : nat) (tm : Timer) (w : World) :
  fire id tm w
  = {| session := session w; now := now w;
       timers := <[id := {| callback := callback tm; interval := interval tm;
                            due := now w + interval tm |}]> (timers w);
       next_timer := next_timer w;
       connections :=
         alter (append_chunk (now w) (fired_payload (callback tm) w))
               (target (callback tm)) (connections w) |}.
Proof. unfold fire. by destruct (callback tm). Qed.

Lemma opened_at_append (t : Z) (p : jsval) (conn : Connection) :
  written conn <> [] -> opened_at (append_chunk t p conn) = opened_at conn.
Proof. unfold opened_at. simpl. by destruct (written conn) as [|[]]. Qed.

Lemma Inv_fire (id : nat) (tm : Timer) (w : World) :
  Inv w ->
  timers w !! id = Some tm ->
  (due tm <= now w)%Z ->
  Inv (fire id tm w).
Proof.
  intros [Ht Hc] Hid Hdue. rewrite fire_eq.
  destruct (Ht id tm Hid) as (Hlt & Hnow & conn & hb & st & Hconn & Hopen & Hl & Hor).
  remember (target (callback tm)) as c eqn:Hc_def.
  pose proof (Hc _ conn Hconn) as Hok. rewrite Hopen in Hok.
  destruct Hok as (Hw & (hb0 & st0 & Hl0 & Hne & Hhb & Hst) & Hhbs & Hsts & Hlo_hb & Hlo_st).
  rewrite Hl in Hl0. injection Hl0 as <- <-.
  remember (fired_payload (callback tm) w) as p eqn:Hp.
  set (conn1 := append_chunk (now w) p conn).
  assert (Hconn1 : alter (append_chunk (now w) p) c (connections w) !! c = Some conn1).
  { by rewrite lookup_alter_eq, Hconn. }
  assert (Hothers : forall id' tm',
            timers w !! id' = Some tm' -> target (callback tm') <> c -> id' <> id).
  { intros id' tm' Hid' Hneq ->. rewrite Hid in Hid'. injection Hid' as <-. done. }
  assert (Hrearm : (now w <= now w + interval tm)%Z).
  { destruct Hor as [->| ->]; [rewrite Hhb in Hid|rewrite Hst in Hid];
      injection Hid as Htm; rewrite <- Htm; cbn; lia. }
  split.
  - intros id' tm' Hid'. cbn [timers next_timer now connections] in *.
    apply lookup_insert_Some in Hid' as [[<- <-]|[Hne' Hid']].
    + split; [done|]. split; [done|].
      cbn [callback]. rewrite <- Hc_def. exists conn1, hb, st. by rewrite Hconn1.
    + destruct (Ht id' tm' Hid') as (? & ? & conn' & hb' & st' & Hconn' & Ho' & Hl' & Hor').
      split; [done|]. split; [done|].
      destruct (decide (target (callback tm') = c)) as [Heq|Hneq].
      * rewrite Heq in Hconn' |- *. rewrite Hconn in Hconn'. injection Hconn' as <-.
        exists conn1, hb', st'. by rewrite Hconn1.
      * exists conn', hb', st'. by rewrite lookup_alter_ne.
  - intros c' conn' Hc'. cbn [timers next_timer now connections] in *.
    destruct (decide (c' = c)) as [->|Hneq].
    + rewrite Hconn1 in Hc'. injection Hc' as <-. subst conn1.
      replace (closed (append_chunk (now w) p conn)) with (closed conn) by done.
      rewrite Hopen. unfold open_ok.
      rewrite (opened_at_append _ _ _ Hw).
      unfold heartbeats, statuses in *. cbn [append_chunk written close_listener timers now].
      rewrite !times_of_snoc, !length_app.
      split; [by destruct (written conn)|].
      assert (Hdue' : due tm = now w) by lia.
      destruct Hor as [->| ->].
      * rewrite Hhb in Hid. injection Hid as <-. cbn in Hdue'.
        subst p. cbn [fired_payload callback interval].
        replace (strict_eq_str (prop (heartbeat_event (now w)) "type") "heartbeat")
          with true by done.
        replace (strict_eq_str (prop (heartbeat_event (now w)) "type") "status")
          with false by done.
        cbn [length]. rewrite app_nil_r, Nat.add_0_r, Nat.add_1_r. split.
        { exists hb, st. split; [done|]. split; [done|].
          rewrite lookup_insert_eq, lookup_insert_ne by done.
          split; [|done]. do 2 f_equal. lia. }
        split; [rewrite every_snoc, <- Hhbs; do 2 f_equal; lia|].
        split; [done|]. lia.
      * rewrite Hst in Hid. injection Hid as <-. cbn in Hdue'.
        subst p. cbn [fired_payload callback interval].
        replace (strict_eq_str (prop (status_event (session w) (now w)) "type") "heartbeat")
          with false by done.
        replace (strict_eq_str (prop (status_event (session w) (now w)) "type") "status")
          with true by done.
        cbn [length]. rewrite app_nil_r, Nat.add_0_r, Nat.add_1_r. split.
        { exists hb, st. split; [done|]. split; [done|].
          rewrite lookup_insert_eq, lookup_insert_ne by done.
          split; [done|]. do 2 f_equal. lia. }
        split; [done|].
        split; [rewrite every_snoc, <- Hsts; do 2 f_equal; lia|]. lia.
    + rewrite lookup_alter_ne in Hc' by done.
      specialize (Hc c' conn' Hc'). destruct (closed conn').
      * destruct Hc as (hb' & st' & Hl' & ? & ? & Hnhb & Hnst).
        exists hb', st'. cbn [next_timer timers].
        assert (hb' <> id) by (intros ->; congruence).
        assert (st' <> id) by (intros ->; congruence).
        by rewrite !lookup_insert_ne.
      * destruct Hc as (Hw' & (hb' & st' & Hl' & Hne'' & Hhb' & Hst') & Hrest).
        split; [done|]. split; [|done].
        exists hb', st'. cbn [timers].
        rewrite !lookup_insert_ne; [done| |].
        -- intros Heq. by apply (Hothers _ _ Hst').
        -- intros Heq. by apply (Hothers _ _ Hhb').
Qed.

Lemma Inv_advance (t : Z) (w : World) :
  Inv w ->
  (now w < t)%Z ->
  map_Forall (fun _ tm => (t <= due tm)%Z) (timers w) ->
  Inv {| session := session w; now := t; timers := timers w;
         next_timer := next_timer w; connections := connections w |}.
Proof.
  intros [Ht Hc] Hlt Hall. split.
  - intros id tm Hid. cbn [timers next_timer now connections] in *.
    destruct (Ht id tm Hid) as (? & _ & Hrest).
    split; [done|]. split; [|done]. by apply (map_Forall_lookup_1 _ _ _ _ Hall Hid).
  - intros c conn Hconn. cbn [connections] in Hconn.
    specialize (Hc c conn Hconn). destruct (closed conn); [done|].
    destruct Hc as (Hw & Hl & Hhbs & Hsts & Hlo_hb & Hlo_st).
    repeat split; try done; cbn [now]; lia.
Qed.

Lemma Inv_serve (r : Request) (w : World) : Inv w -> Inv (serve r w).
Proof. intros [Ht Hc]. by split. Qed.

Lemma Inv_exec (l : Label) (w w' : World) :
  Inv w -> exec l w = Some w' -> Inv w'.
Proof.
  intros HI. destruct l as [c|c|id|t|r]; simpl.
  - destruct (connections w !! c) eqn:Hc; [done|].
    intros [= <-]. by apply Inv_connect.
  - destruct (connections w !! c) as [conn|] eqn:Hc; [|done].
    destruct (closed conn) eqn:Hclosed; [done|].
    intros [= <-]. by apply Inv_close.
  - destruct (timers w !! id) as [tm|] eqn:Hid; [|done].
    case_decide; [|done]. intros [= <-]. by apply Inv_fire.
  - case_decide as Hg; [|done]. destruct Hg. intros [= <-]. by apply Inv_advance.
  - intros [= <-]. by apply Inv_serve.
Qed.

Lemma Inv_run (ls : list Label) (w w' : World) :
  Inv w -> run ls w = Some w' -> Inv w'.
Proof.
  revert w. induction ls as [|l ls IH]; intros w HI; simpl.
  - by intros [= <-].
  - destruct (exec l w) as [w1|] eqn:Hexec; [|done].
    apply IH. by apply (Inv_exec l w).
Qed.

(** Once a subscriber has disconnected, no step touches its connection. *)
Lemma closed_frozen (l : Label) (w w' : World) (c : nat) (conn : Connection) :
  Inv w ->
  connections w !! c = Some conn ->
  closed conn = true ->
  exec l w = Some w' ->
  connections w' !! c = Some conn.
Proof.
  intros [Ht Hc] Hconn Hclosed. destruct l as [c'|c'|id|t|r]; simpl.
  - destruct (connections w !! c') eqn:Hc'; [done|].
    intros [= <-]. rewrite get_sse_eq. cbn [connections].
    rewrite lookup_insert_ne; [done|]. intros ->. congruence.
  - destruct (connections w !! c') as [conn'|] eqn:Hc'; [|done].
    destruct (closed conn') eqn:Hclosed'; [done|].
    intros [= <-]. unfold on_close. cbn [connections].
    assert (c' <> c) by (intros ->; congruence).
    rewrite lookup_insert_ne by done.
    by destruct (close_listener conn') as [[]|].
  - destruct (timers w !! id) as [tm|] eqn:Hid; [|done].
    case_decide; [|done]. intros [= <-]. rewrite fire_eq. cbn [connections].
    destruct (Ht id tm Hid) as (_ & _ & conn' & hb & st & Hconn' & Hopen & _).
    rewrite lookup_alter_ne; [done|]. intros Heq. congruence.
  - case_decide; [|done]. by intros [= <-].
  - by intros [= <-].
Qed.

Lemma closed_frozen_run (ls : list Label) (w w' : World) (c : nat) (conn : Connection) :
  Inv w ->
  connections w !! c = Some conn ->
  closed conn = true ->
  run ls w = Some w' ->
  connections w' !! c = Some conn.
Proof.
  revert w. induction ls as [|l ls IH]; intros w HI Hconn Hclosed; simpl.
  - by intros [= <-].
  - destruct (exec l w) as [w1|] eqn:Hexec; [|done].
    apply IH; [by apply (Inv_exec l w)| |done].
    by apply (closed_frozen l w).
Qed.

(** What has been written to a connection stays written, in order. *)
Lemma written_grows (l : Label) (w w' : World) (c : nat) (conn : Connection) :
  connections w !! c = Some conn ->
  exec l w = Some w' ->
  exists conn', connections w' !! c = Some conn'
                /\ written conn `prefix_of` written conn'.
Proof.
  intros Hconn. destruct l as [c'|c'|id|t|r]; simpl.
  - destruct (connections w !! c') eqn:Hc'; [done|].
    intros [= <-]. rewrite get_sse_eq. cbn [connections].
    exists conn. split; [|done]. rewrite lookup_insert_ne; [done|]. intros ->. congruence.
  - destruct (connections w !! c') as [conn'|] eqn:Hc'; [|done].
    destruct (closed conn') eqn:Hclosed'; [done|].
    intros [= <-]. unfold on_close. cbn [connections].
    destruct (decide (c' = c)) as [->|Hne].
    + rewrite lookup_insert_eq. eexists. split; [done|].
      cbn [written]. by replace conn' with conn by congruence.
    + exists conn. rewrite lookup_insert_ne by done.
      by destruct (close_listener conn') as [[]|].
  - destruct (timers w !! id) as [tm|] eqn:Hid; [|done].
    case_decide; [|done]. intros [= <-]. rewrite fire_eq. cbn [connections].
    destruct (decide (target (callback tm) = c)) as [->|Hne].
    + rewrite lookup_alter_eq, Hconn. eexists. split; [done|].
      cbn [append_chunk written]. by apply prefix_app_r.
    + exists conn. by rewrite lookup_alter_ne.
  - case_decide; [|done]. intros [= <-]. by exists conn.
  - intros [= <-]. by exists conn.
Qed.

Lemma written_grows_run (ls : list Label) (w w' : World) (c : nat) (conn : Connection) :
  connections w !! c = Some conn ->
  run ls w = Some w' ->
  exists conn', connections w' !! c = Some conn'
                /\ written conn `prefix_of` written conn'.
Proof.
  revert w conn. induction ls as [|l ls IH]; intros w conn Hconn; simpl.
  - intros [= <-]. by exists conn.
  - destruct (exec l w) as [w1|] eqn:Hexec; [|done]. intros Hrun.
    destruct (written_grows l w w1 c conn Hconn Hexec) as (conn1 & Hconn1 & Hpre1).
    destruct (IH w1 conn1 Hconn1 Hrun) as (conn' & Hconn' & Hpre').
    exists conn'. split; [done|]. by etrans.
Qed.

(** C4: a subscriber of [/sse] is first sent a [connection] event (with a
    message and the time) and next a [status] event with the presence flags
    of the two globals at that moment, both before any [heartbeat]. While
    the subscriber is connected, its [heartbeat] events are the ones
    written 30 s, 60 s, 90 s, ... after the subscription and its [status]
    events the ones written 0 s, 60 s, 120 s, ... after it, none missing up
    to the present time. Once the client has disconnected, the two timers
    of the connection are out of the timer table, no timer writes to the
    connection, and whatever happens afterwards nothing more is written to
    it. *)
Theorem sse_connection_lifecycle
    (t : Z) (before after : list Label) (c : nat) (w0 w : World) :
  run before (initial_world t) = Some w0 ->
  run (LConnect c :: after) w0 = Some w ->
  let t0 := now w0 in
  exists conn,
    connections w !! c = Some conn
    /\ [(t0, JObj [("type", JStr "connection");
                   ("message", JStr "已连接到PandasAI MCP服务");
                   ("timestamp", JStr (toISOString t0))]);
        (t0, status_event (session w0) t0)] `prefix_of` written conn
    /\ prop (prop (status_event (session w0) t0) "data") "dataLoaded"
       = JBool (bool_decide (is_Some (currentDataframe (session w0))))
    /\ prop (prop (status_event (session w0) t0) "data") "llmConfigured"
       = JBool (not_null (currentLLM (session w0)))
    /\ (closed conn = false ->
        times_of "heartbeat" (written conn)
        = every 30000 (t0 + 30000) (heartbeats conn)
        /\ times_of "status" (written conn) = every 60000 t0 (statuses conn)
        /\ (t0 + 30000 * Z.of_nat (heartbeats conn) <= now w
            <= t0 + 30000 * (Z.of_nat (heartbeats conn) + 1))%Z
        /\ (t0 + 60000 * (Z.of_nat (statuses conn) - 1) <= now w
            <= t0 + 60000 * Z.of_nat (statuses conn))%Z)
    /\ (closed conn = true ->
        (exists heartbeat statusInterval,
           close_listener conn = Some (heartbeat, statusInterval)
           /\ timers w !! heartbeat = None
           /\ timers w !! statusInterval = None)
        /\ (forall id tm, timers w !! id = Some tm -> target (callback tm) <> c)
        /\ (forall later w',
              run later w = Some w' -> connections w' !! c = Some conn)).
Proof.
  intros Hbefore Hrun t0. simpl in Hrun.
  destruct (connections w0 !! c) eqn:Hfresh; [done|].
  pose proof (Inv_run _ _ _ (Inv_initial t) Hbefore) as HI0.
  pose proof (Inv_connect c w0 HI0 Hfresh) as HI1.
  pose proof (Inv_run _ _ _ HI1 Hrun) as [Ht Hc].
  assert (Hconn1 : connections (get_sse c w0) !! c
                   = Some {| written := [(t0, connection_event t0);
                                         (t0, status_event (session w0) t0)];
                             close_listener := Some (next_timer w0, S (next_timer w0));
                             closed := false |}).
  { rewrite get_sse_eq. cbn [connections]. by rewrite lookup_insert_eq. }
  destruct (written_grows_run _ _ _ _ _ Hconn1 Hrun) as (conn & Hconn & Hpre).
  cbn [written] in Hpre.
  assert (Ht0 : opened_at conn = t0).
  { destruct Hpre as [rest Hrest]. unfold opened_at. by rewrite Hrest. }
  exists conn. do 4 (split; [done|]).
  specialize (Hc c conn Hconn). split.
  - intros Hopen. rewrite Hopen in Hc.
    destruct Hc as (_ & (hb & st & _ & _ & Hhb & Hst) & Hhbs & Hsts & Hlo_hb & Hlo_st).
    rewrite Ht0 in *.
    destruct (Ht _ _ Hhb) as (_ & Hdue_hb & _).
    destruct (Ht _ _ Hst) as (_ & Hdue_st & _).
    cbn [due] in Hdue_hb, Hdue_st. done.
  - intros Hclosed. rewrite Hclosed in Hc.
    destruct Hc as (hb & st & Hl & _ & _ & Hnhb & Hnst).
    split; [by exists hb, st|]. split.
    + intros id tm Hid Htarget.
      destruct (Ht id tm Hid) as (_ & _ & conn' & _ & _ & Hconn' & Hopen' & _).
      rewrite Htarget in Hconn'. congruence.
    + intros later w' Hlater.
      apply (closed_frozen_run later w); [|done..].
      exact (Inv_run _ _ _ HI1 Hrun).
Qed.

(** ** What the requests leave alone *)

Lemma respects_ret {A} (R : State -> State -> Prop) (a : A) :
  (forall s, R s s) -> respects R (ret a).
Proof. intros Hrefl s. apply Hrefl. Qed.

Lemma respects_throw {A} (R : State -> State -> Prop) (e : exn) :
  (forall s, R s s) -> respects R (throw (A := A) e).
Proof. intros Hrefl s. apply Hrefl. Qed.

Lemma respects_lift {A} (R : State -> State -> Prop) (r : exn + A) :
  (forall s, R s s) -> respects R (lift r).
Proof. intros Hrefl s. apply Hrefl. Qed.

Lemma respects_get_state (R : State -> State -> Prop) :
  (forall s, R s s) -> respects R get_state.
Proof. intros Hrefl s. apply Hrefl. Qed.

Lemma respects_modify (R : State -> State -> Prop) (f : State -> State) :
  (forall s, R s (f s)) -> respects R (modify f).
Proof. intros Hf s. apply Hf. Qed.

Lemma respects_bind {A B} (R : State -> State -> Prop) (m : M A) (k : A -> M B) :
  (forall s1 s2 s3, R s1 s2 -> R s2 s3 -> R s1 s3) ->
  respects R m -> (forall a, respects R (k a)) -> respects R (bind m k).
Proof.
  intros Htrans Hm Hk s. unfold bind.
  specialize (Hm s). destruct (m s) as [[e|a] s1]; [done|].
  exact (Htrans _ _ _ Hm (Hk a s1)).
Qed.

Lemma respects_try_catch {A} (R : State -> State -> Prop) (m : M A) (h : exn -> M A) :
  (forall s1 s2 s3, R s1 s2 -> R s2 s3 -> R s1 s3) ->
  respects R m -> (forall e, respects R (h e)) -> respects R (try_catch m h).
Proof.
  intros Htrans Hm Hh s. unfold try_catch.
  specialize (Hm s). destruct (m s) as [[e|a] s1]; [|done].
  exact (Htrans _ _ _ Hm (Hh e s1)).
Qed.

Lemma respects_at {A} (R : State -> State -> Prop) (m : M A) (s : State) :
  respects R m -> R s (snd (m s)).
Proof. intros Hm. apply Hm. Qed.

Lemma snd_try_respond (m : M Response) (h : exn -> Response) (s : State) :
  snd (try_respond m h s) = snd (m s).
Proof. unfold try_respond. by destruct (m s) as [[e|r] s1]. Qed.

Lemma same_dataset_refl (s : State) : same_dataset s s.
Proof. done. Qed.

Lemma same_dataset_trans (s1 s2 s3 : State) :
  same_dataset s1 s2 -> same_dataset s2 s3 -> same_dataset s1 s3.
Proof. unfold same_dataset. congruence. Qed.

Lemma backend_step_refl (s : State) : backend_step s s.
Proof. by left. Qed.

Lemma backend_step_trans (s1 s2 s3 : State) :
  backend_step s1 s2 -> backend_step s2 s3 -> backend_step s1 s3.
Proof.
  intros H12 [H23|H23]; [|by right].
  destruct H12 as [H12|[config H12]]; [left; congruence|].
  right. exists config. by rewrite H23.
Qed.

(** Storing what [configureLLM] returned is a [backend_step]. *)
Lemma respects_configure (config : jsval) :
  respects backend_step
    (bind (lift (configureLLM config)) (fun llm => modify (set_currentLLM llm))).
Proof.
  intros s. unfold bind, lift, modify.
  destruct (configureLLM config) as [e|llm] eqn:Hcfg; [by left|].
  right. by exists config.
Qed.

(** Takes a handler body apart along its structure. *)
Ltac frame Hrefl Htrans :=
  repeat first
    [ apply respects_ret; exact Hrefl
    | apply respects_throw; exact Hrefl
    | apply respects_lift; exact Hrefl
    | apply respects_get_state; exact Hrefl
    | apply respects_configure
    | apply respects_modify; intros ?; first [by left | done]
    | apply respects_bind; [exact Htrans| |intros ?]
    | apply respects_try_catch; [exact Htrans| |intros ?]
    | match goal with
      | |- respects _ (if ?b then _ else _) => destruct b
      | |- respects _ (match ?x with _ => _ end) => destruct x
      end ].

Lemma handleAnalyzeData_same_dataset (args : jsval) :
  respects same_dataset (handleAnalyzeData args).
Proof.
  unfold handleAnalyzeData, destructurable, read_prop. cbv zeta.
  frame same_dataset_refl same_dataset_trans.
Qed.

Lemma handleConfigureLLM_same_dataset (args : jsval) :
  respects same_dataset (handleConfigureLLM args).
Proof.
  unfold handleConfigureLLM, destructurable, read_prop.
  frame same_dataset_refl same_dataset_trans.
Qed.

Lemma handleAnalyzeData_backend_step (args : jsval) :
  respects backend_step (handleAnalyzeData args).
Proof.
  unfold handleAnalyzeData, destructurable, read_prop. cbv zeta.
  frame backend_step_refl backend_step_trans.
Qed.

Lemma handleConfigureLLM_backend_step (args : jsval) :
  respects backend_step (handleConfigureLLM args).
Proof.
  unfold handleConfigureLLM, destructurable, read_prop.
  apply respects_bind; [exact backend_step_trans| |intros _].
  { apply respects_modify. by left. }
  apply respects_try_catch; [exact backend_step_trans| |intros e].
  2: { apply respects_throw. exact backend_step_refl. }
  apply respects_bind; [exact backend_step_trans| |intros _].
  { apply respects_modify. by left. }
  intros s. unfold bind at 1. unfold lift at 1.
  destruct (configureLLM args) as [e|llm] eqn:Hcfg; [by left|].
  unfold bind at 1. unfold modify at 1.
  apply (backend_step_trans _ (set_currentLLM llm s)).
  { right. by exists args. }
  assert (Hrest : respects backend_step
            (bind (if nullish args
                   then throw (Error (cannot_read_property "model" args))
                   else ret (prop args "model"))
               (fun model =>
                  bind (lift (to_string model))
                    (fun shown =>
                       ret (text_content (JStr ("LLM配置成功: " +:+ shown))))))).
  { frame backend_step_refl backend_step_trans. }
  apply Hrest.
Qed.

Lemma handleToolCall_same_dataset (params : jsval) :
  respects same_dataset (handleToolCall params).
Proof.
  unfold handleToolCall, destructurable. cbv zeta.
  apply respects_bind; [exact same_dataset_trans| |intros _].
  { by apply respects_modify. }
  apply respects_bind; [exact same_dataset_trans| |intros _].
  { destruct (nullish params); [by apply respects_throw|by apply respects_ret]. }
  destruct (strict_eq_str _ "analyze_data"); [apply handleAnalyzeData_same_dataset|].
  destruct (strict_eq_str _ "configure_llm"); [apply handleConfigureLLM_same_dataset|].
  frame same_dataset_refl same_dataset_trans.
Qed.

Lemma handleToolCall_backend_step (params : jsval) :
  respects backend_step (handleToolCall params).
Proof.
  unfold handleToolCall, destructurable. cbv zeta.
  apply respects_bind; [exact backend_step_trans| |intros _].
  { apply respects_modify. by left. }
  apply respects_bind; [exact backend_step_trans| |intros _].
  { destruct (nullish params);
      [apply respects_throw|apply respects_ret]; exact backend_step_refl. }
  destruct (strict_eq_str _ "analyze_data"); [apply handleAnalyzeData_backend_step|].
  destruct (strict_eq_str _ "configure_llm"); [apply handleConfigureLLM_backend_step|].
  frame backend_step_refl backend_step_trans.
Qed.

(** The body of [/mcp] before its [catch]. *)
Lemma post_mcp_respects (R : State -> State -> Prop) (req_body : jsval) (s : State) :
  (forall s, R s s) ->
  (forall s1 s2 s3, R s1 s2 -> R s2 s3 -> R s1 s3) ->
  (forall c s, R s (record_call c s)) ->
  (forall params, respects R (handleToolCall params)) ->
  R s (snd (post_mcp req_body s)).
Proof.
  intros Hrefl Htrans Hcall Htool. unfold post_mcp. rewrite snd_try_respond.
  apply respects_at. unfold destructurable. cbv zeta.
  apply respects_bind; [exact Htrans| |intros _].
  { destruct (nullish req_body); [by apply respects_throw|by apply respects_ret]. }
  apply respects_bind; [exact Htrans|by apply respects_lift|intros _].
  apply respects_bind; [exact Htrans| |intros result; by apply respects_ret].
  repeat match goal with
         | |- respects _ (if ?b then _ else _) => destruct b
         end.
  - apply respects_bind; [exact Htrans| |intros _; by apply respects_lift].
    apply respects_modify. intros s0. apply Hcall.
  - by apply respects_ret.
  - apply respects_bind; [exact Htrans| |intros _; by apply respects_lift].
    apply respects_modify. intros s0. apply Hcall.
  - apply Htool.
  - apply respects_bind; [exact Htrans|by apply respects_lift|intros shown].
    by apply respects_throw.
Qed.

Lemma post_analyze_respects (R : State -> State -> Prop) (req_body : jsval) (s : State) :
  (forall s, R s s) ->
  (forall s1 s2 s3, R s1 s2 -> R s2 s3 -> R s1 s3) ->
  (forall args, respects R (handleAnalyzeData args)) ->
  R s (snd (post_analyze req_body s)).
Proof.
  intros Hrefl Htrans Hana. unfold post_analyze. rewrite snd_try_respond.
  apply respects_at. unfold destructurable. cbv zeta.
  apply respects_bind; [exact Htrans| |intros _].
  { destruct (nullish req_body); [by apply respects_throw|by apply respects_ret]. }
  destruct (negb _); [by apply respects_ret|].
  apply respects_bind; [exact Htrans|apply Hana|intros result; by apply respects_ret].
Qed.

Lemma post_configure_llm_respects (R : State -> State -> Prop) (req_body : jsval)
    (s : State) :
  (forall s, R s s) ->
  (forall s1 s2 s3, R s1 s2 -> R s2 s3 -> R s1 s3) ->
  (forall args, respects R (handleConfigureLLM args)) ->
  R s (snd (post_configure_llm req_body s)).
Proof.
  intros Hrefl Htrans Hcfg. unfold post_configure_llm. rewrite snd_try_respond.
  apply respects_at.
  apply respects_bind; [exact Htrans|apply Hcfg|intros result; by apply respects_ret].
Qed.

(** What [/upload] does to the two globals: the backend is never written,
    and the dataset is either left alone or replaced by the object built
    from a table that was read. *)
Lemma post_upload_state (file : option UploadedFile) (s : State) :
  currentLLM (snd (post_upload file s)) = currentLLM s
  /\ (currentDataframe (snd (post_upload file s)) = currentDataframe s
      \/ exists f table,
           file = Some f
           /\ fst (load f s) = inr table
           /\ currentDataframe (snd (post_upload file s))
              = Some (dataframe_of f table)).
Proof.
  unfold post_upload. destruct file as [f|]; [|by split; [|left]].
  destruct (fileFilter f); [by split; [|left]|].
  rewrite upload_handler_eq.
  destruct (load_state f s) as (Hd & Hl & _).
  destruct (load f s) as [[e|table] s1] eqn:Hload; simpl in *; [by split; [|left]|].
  destruct (fs_unlinkSync (path f)); simpl; (split; [done|]);
    right; exists f, table; by rewrite Hload.
Qed.

Lemma handle_same_dataset (r : Request) (t : Z) (s : State) :
  (forall file, r <> PostUpload file) ->
  currentDataframe (snd (handle r t s)) = currentDataframe s.
Proof.
  intros Hr. destruct r as [req_body|file|req_body|req_body|]; simpl.
  - apply (post_mcp_respects same_dataset); try done.
    + exact same_dataset_trans.
    + exact handleToolCall_same_dataset.
  - by destruct (Hr file).
  - apply (post_analyze_respects same_dataset); try done.
    + exact same_dataset_trans.
    + exact handleAnalyzeData_same_dataset.
  - apply (post_configure_llm_respects same_dataset); try done.
    + exact same_dataset_trans.
    + exact handleConfigureLLM_same_dataset.
  - done.
Qed.

Lemma handle_backend_step (r : Request) (t : Z) (s : State) :
  backend_step s (snd (handle r t s)).
Proof.
  destruct r as [req_body|file|req_body|req_body|]; simpl.
  - apply (post_mcp_respects backend_step).
    + exact backend_step_refl.
    + exact backend_step_trans.
    + intros c s0. by left.
    + exact handleToolCall_backend_step.
  - left. apply post_upload_state.
  - apply (post_analyze_respects backend_step).
    + exact backend_step_refl.
    + exact backend_step_trans.
    + exact handleAnalyzeData_backend_step.
  - apply (post_configure_llm_respects backend_step).
    + exact backend_step_refl.
    + exact backend_step_trans.
    + exact handleConfigureLLM_backend_step.
  - by left.
Qed.

(** A step of the process either is a request, which changes the session as
    its handler does and nothing else, or leaves the session alone. *)
Lemma exec_session (l : Label) (w w' : World) :
  exec l w = Some w' ->
  session w' = session w
  \/ exists r, l = LRequest r /\ session w' = snd (handle r (now w) (session w)).
Proof.
  destruct l as [c|c|id|t|r]; simpl.
  - destruct (connections w !! c); [done|]. intros [= <-]. left.
    by rewrite get_sse_eq.
  - destruct (connections w !! c) as [conn|]; [|done].
    destruct (closed conn); [done|]. intros [= <-]. left.
    unfold on_close. by destruct (close_listener conn) as [[]|].
  - destruct (timers w !! id) as [tm|]; [|done].
    case_decide; [|done]. intros [= <-]. left. by rewrite fire_eq.
  - case_decide; [|done]. intros [= <-]. by left.
  - intros [= <-]. right. by exists r.
Qed.

(** X2: [currentDataframe] is written by [/upload] only. Over any run of
    the process in which no [/upload] request is served, whatever else
    happens ([/mcp] requests and so tool calls, [/analyze],
    [/configure-llm], [/status], subscribers and their timers), it holds at
    the end what it held at the start. *)
Theorem dataset_written_only_by_upload (ls : list Label) (w w' : World) :
  Forall (fun l => forall file, l <> LRequest (PostUpload file)) ls ->
  run ls w = Some w' ->
  currentDataframe (session w') = currentDataframe (session w).
Proof.
  revert w. induction ls as [|l ls IH]; intros w Hls; simpl.
  - by intros [= <-].
  - destruct (exec l w) as [w1|] eqn:Hexec; [|done]. intros Hrun.
    apply Forall_cons in Hls as [Hl Hls].
    rewrite (IH w1 Hls Hrun).
    destruct (exec_session l w w1 Hexec) as [->|(r & -> & ->)]; [done|].
    apply handle_same_dataset. intros file ->. by apply (Hl file).
Qed.

Lemma run_backend_step (ls : list Label) (w w' : World) :
  run ls w = Some w' -> backend_step (session w) (session w').
Proof.
  revert w. induction ls as [|l ls IH]; intros w; simpl.
  - intros [= <-]. apply backend_step_refl.
  - destruct (exec l w) as [w1|] eqn:Hexec; [|done]. intros Hrun.
    apply (backend_step_trans _ (session w1)); [|by apply IH].
    destruct (exec_session l w w1 Hexec) as [->|(r & _ & ->)].
    + apply backend_step_refl.
    + apply handle_backend_step.
Qed.

(** X3: in every state the process can reach, [currentLLM] is [null] or a
    handle that [configureLLM] returned for some configuration: no handler
    stores anything else there. *)
Theorem reachable_backend (t : Z) (ls : list Label) (w : World) :
  run ls (initial_world t) = Some w ->
  currentLLM (session w) = JNull
  \/ exists config, configureLLM config = inr (currentLLM (session w)).
Proof.
  intros Hrun. destruct (run_backend_step ls _ _ Hrun) as [Hsame|Hcfg].
  - left. by rewrite Hsame.
  - by right.
Qed.

Lemma handle_dataset_counts (r : Request) (t : Z) (s : State) :
  (forall d, currentDataframe s = Some d ->
             rows d = length (data d) /\ columns d = first_row_keys (data d)) ->
  forall d, currentDataframe (snd (handle r t s)) = Some d ->
            rows d = length (data d) /\ columns d = first_row_keys (data d).
Proof.
  intros Hs d. destruct r as [req_body|file|req_body|req_body|].
  2: { simpl. destruct (post_upload_state file s) as (_ & [->|(f & table & _ & _ & ->)]).
       - apply Hs.
       - intros [= <-]. split; [done|apply dataframe_of_columns]. }
  all: rewrite handle_same_dataset by done; apply Hs.
Qed.

Lemma run_dataset_counts (ls : list Label) (w w' : World) :
  (forall d, currentDataframe (session w) = Some d ->
             rows d = length (data d) /\ columns d = first_row_keys (data d)) ->
  run ls w = Some w' ->
  forall d, currentDataframe (session w') = Some d ->
            rows d = length (data d) /\ columns d = first_row_keys (data d).
Proof.
  revert w. induction ls as [|l ls IH]; intros w Hw; simpl.
  - by intros [= <-].
  - destruct (exec l w) as [w1|] eqn:Hexec; [|done].
    apply IH. destruct (exec_session l w w1 Hexec) as [->|(r & _ & ->)]; [done|].
    by apply handle_dataset_counts.
Qed.

(** X4: in every state the process can reach, a stored dataset has
    [rows] equal to the number of its records and [columns] equal to the
    number of keys of its first record, zero when it has none. *)
Theorem reachable_dataset_counts (t : Z) (ls : list Label) (w : World) (d : Dataframe) :
  run ls (initial_world t) = Some w ->
  currentDataframe (session w) = Some d ->
  rows d = length (data d)
  /\ columns d = match data d with
                 | [] => 0
                 | first :: _ => length (Object_keys first)
                 end.
Proof.
  intros Hrun Hd.
  apply (run_dataset_counts ls (initial_world t) w); [done|done|done].
Qed.

(** Only a request changes the session, and a request changes nothing
    else. *)
Lemma sse_and_requests_separate (l : Label) (w w' : World) :
  exec l w = Some w' ->
  match l with
  | LRequest r =>
      session w' = snd (handle r (now w) (session w))
      /\ now w' = now w
      /\ timers w' = timers w
      /\ next_timer w' = next_timer w
      /\ connections w' = connections w
  | _ => session w' = session w
  end.
Proof.
  intros Hexec. destruct l as [c|c|id|t|r];
    try (destruct (exec_session _ w w' Hexec) as [Hs|(r & Hr & _)];
         [exact Hs|discriminate Hr]).
  simpl in Hexec. by injection Hexec as <-.
Qed.

Lemma post_analyze_eq (req_body : jsval) (s : State) :
  post_analyze req_body s
  = if nullish req_body
    then (res_status_json 500
            (error_body (cannot_destructure "query" "req.body" req_body)), s)
    else if truthy (prop req_body "query")
    then match handleAnalyzeData
                 (JObj [("query", prop req_body "query");
                        ("llm_config", prop req_body "llm_config")]) s with
         | (inl e, s1) => (res_status_json 500 (error_body (message e)), s1)
         | (inr result, s1) => (res_json result, s1)
         end
    else (res_status_json 400 (error_body "请提供分析查询"), s).
Proof.
  unfold post_analyze. unfold_monad.
  destruct (nullish req_body); [done|].
  destruct (truthy (prop req_body "query")); [|done]. simpl.
  by destruct (handleAnalyzeData _ s) as [[e|result] s1].
Qed.

(** X5: [/analyze] answers 200, 400 or 500. It answers 400 exactly for a
    body with a falsy [query] (a body that is [null] or [undefined] gives
    500), and a 200 carries what [handleAnalyzeData] returned for
    [{query, llm_config}]. *)
Theorem post_analyze_status (req_body : jsval) (s : State) :
  let r := fst (post_analyze req_body s) in
  (status r = 400%Z <-> nullish req_body = false /\ truthy (prop req_body "query") = false)
  /\ (status r = 200%Z \/ status r = 400%Z \/ status r = 500%Z)
  /\ (status r = 200%Z ->
      fst (handleAnalyzeData
             (JObj [("query", prop req_body "query");
                    ("llm_config", prop req_body "llm_config")]) s)
      = inr (body r)).
Proof.
  intros r. subst r. rewrite post_analyze_eq.
  destruct (nullish req_body).
  { split; [split; [done|by intros []]|]. split; [auto|done]. }
  destruct (truthy (prop req_body "query")).
  2: { split; [done|]. split; [auto|done]. }
  destruct (handleAnalyzeData _ s) as [[e|result] s1].
  - split; [split; [done|by intros []]|]. split; [auto|done].
  - split; [split; [done|by intros []]|]. split; [auto|done].
Qed.

(** X6: [/configure-llm] never touches the dataset. When [configureLLM]
    accepts the body, the handle replaces [currentLLM] whatever it held; the
    answer is then 200 with a text naming [body.model] as a template
    literal renders it (so [undefined] when the key is missing), or, when
    [body.model] cannot be rendered (an object with an own [toString] key),
    500 with the TypeError's message under the prefix of
    [handleConfigureLLM], the handle staying stored. When [configureLLM]
    throws, [currentLLM] is left as it was and the answer is 500 with its
    message under the same prefix. *)
Theorem post_configure_llm_outcome (req_body : jsval) (s : State) :
  nullish req_body = false ->
  currentDataframe (snd (post_configure_llm req_body s)) = currentDataframe s
  /\ match configureLLM req_body with
     | inr llm =>
         currentLLM (snd (post_configure_llm req_body s)) = llm
         /\ fst (post_configure_llm req_body s)
            = match to_string (prop req_body "model") with
              | inr shown =>
                  res_json (text_content (JStr ("LLM配置成功: " +:+ shown)))
              | inl e =>
                  res_status_json 500 (error_body ("LLM配置失败: " +:+ message e))
              end
     | inl e =>
         fst (post_configure_llm req_body s)
         = res_status_json 500 (error_body ("LLM配置失败: " +:+ message e))
         /\ currentLLM (snd (post_configure_llm req_body s)) = currentLLM s
     end.
Proof.
  intros Hbody. unfold post_configure_llm, handleConfigureLLM. unfold_monad.
  simpl. rewrite Hbody.
  destruct (configureLLM req_body) as [e|llm]; [done|]. simpl.
  by destruct (to_string (prop req_body "model")) as [e|shown].
Qed.

(** X7: a [configure_llm] tool call whose [arguments] are missing or [null]
    fails, under the prefix of [handleConfigureLLM], on reading [args.model];
    by then the handle [configureLLM] returned for them is already stored
    in [currentLLM]. *)
Theorem configure_llm_without_arguments (params : jsval) (s : State) (llm : jsval) :
  nullish params = false ->
  prop params "name" = JStr "configure_llm" ->
  nullish (prop params "arguments") = true ->
  configureLLM (prop params "arguments") = inr llm ->
  fst (handleToolCall params s)
  = inl (Error ("LLM配置失败: "
                +:+ cannot_read_property "model" (prop params "arguments")))
  /\ currentLLM (snd (handleToolCall params s)) = llm.
Proof.
  intros Hparams Hname Hargs Hcfg.
  unfold handleToolCall, handleConfigureLLM. unfold_monad.
  rewrite Hparams, Hname. simpl. by rewrite Hcfg, Hargs.
Qed.

(** X8: when the engine returns, the text of the result is its [answer]
    if that is truthy and the fixed placeholder otherwise (so also for an
    empty-string answer); an engine result that is [null] or [undefined]
    makes the call fail on reading [answer]. *)
Theorem handleAnalyzeData_answer (args : jsval) (s : State) (df : Dataframe)
    (result : jsval) :
  nullish args = false ->
  currentDataframe s = Some df ->
  truthy (prop args "llm_config") = false ->
  truthy (currentLLM s) = true ->
  analyze df (prop args "query") (currentLLM s) = inr result ->
  fst (handleAnalyzeData args s)
  = if nullish result
    then inl (Error ("数据分析失败: " +:+ cannot_read_property "answer" result))
    else inr (text_content
                (if truthy (prop result "answer")
                 then prop result "answer"
                 else JStr "分析完成")).
Proof.
  intros Hargs Hdf Hcfg Hllm Hres.
  rewrite (handleAnalyzeData_with_dataset _ _ df Hargs Hdf). simpl.
  rewrite Hcfg. unfold analysis_from. simpl. rewrite Hllm, Hres.
  by destruct (nullish result).
Qed.

(** X9: after [handleConfigureLLM] succeeded with a truthy handle, an
    [analyze_data] call without inline configuration on a loaded dataset
    calls the engine, with the dataset, the query and that handle. *)
Theorem configure_then_analyze (config args : jsval) (s : State) (df : Dataframe)
    (llm : jsval) :
  nullish config = false ->
  configureLLM config = inr llm ->
  truthy llm = true ->
  currentDataframe s = Some df ->
  nullish args = false ->
  truthy (prop args "llm_config") = false ->
  let s1 := snd (handleConfigureLLM config s) in
  calls (snd (handleAnalyzeData args s1))
  = calls s1 ++ [EnterHandleAnalyzeData args;
                 CallAnalyze df (prop args "query") llm].
Proof.
  intros Hconfig Hcfg Hllm Hdf Hargs Hinline s1.
  assert (Hs1 : currentLLM s1 = llm /\ currentDataframe s1 = Some df).
  { subst s1. unfold handleConfigureLLM. unfold_monad. simpl.
    rewrite Hcfg, Hconfig. simpl.
    by destruct (to_string (prop config "model")) as [e|shown]. }
  destruct Hs1 as [Hl1 Hd1].
  rewrite (handleAnalyzeData_with_dataset _ _ df Hargs Hd1). simpl.
  rewrite Hinline.
  pose proof (analysis_from_state df (prop args "query")
                (record_call (EnterHandleAnalyzeData args) s1)) as (_ & _ & Hc).
  simpl in Hc. rewrite Hl1, Hllm in Hc. rewrite Hc. by rewrite <- app_assoc.
Qed.

(** X11: the dataset flag of [/status] and of the [status] event of
    [/sse] are the same; the backend flags are the same exactly when
    [currentLLM] is [null] or truthy, since [/status] tests truthiness and
    the event tests [!== null]. *)
Theorem status_flags_agree (s : State) (t : Z) :
  prop (body (get_status t s)) "data_loaded"
  = prop (prop (status_event s t) "data") "dataLoaded"
  /\ (prop (body (get_status t s)) "llm_configured"
      = prop (prop (status_event s t) "data") "llmConfigured"
      <-> currentLLM s = JNull \/ truthy (currentLLM s) = true).
Proof.
  split; [done|]. cbn.
  destruct (currentLLM s) as [| |b|x|str|items|fields]; cbn.
  - split; [done|]. by intros [|].
  - split; [by left|done].
  - destruct b; split; try done; try (by right); by intros [|].
  - destruct x as [sg|sg| |sg m e]; cbn; split; try done; try (by right); by intros [|].
  - destruct (String.eqb str ""); cbn; split; try done; try (by right); by intros [|].
  - split; [by right|done].
  - split; [by right|done].
Qed.

Lemma get_status_flags (s : State) (t : Z) :
  prop (body (get_status t s)) "data_loaded"
  = JBool (bool_decide (is_Some (currentDataframe s)))
  /\ prop (body (get_status t s)) "llm_configured" = JBool (truthy (currentLLM s)).
Proof. done. Qed.

(** X12: for an [analyze_data] call without inline configuration, the
    engine is called exactly when [/status] reports both [data_loaded] and
    [llm_configured]. *)
Theorem status_predicts_analysis (args : jsval) (s : State) (t : Z) :
  nullish args = false ->
  truthy (prop args "llm_config") = false ->
  (prop (body (get_status t s)) "data_loaded" = JBool true
   /\ prop (body (get_status t s)) "llm_configured" = JBool true)
  <-> exists df,
        currentDataframe s = Some df
        /\ calls (snd (handleAnalyzeData args s))
           = calls s ++ [EnterHandleAnalyzeData args;
                         CallAnalyze df (prop args "query") (currentLLM s)].
Proof.
  intros Hargs Hinline.
  destruct (get_status_flags s t) as [-> ->]. split.
  - intros [Hd Hl]. destruct (currentDataframe s) as [df|] eqn:Hdf; [|done].
    injection Hl as Hl. exists df. split; [done|].
    rewrite (handleAnalyzeData_with_dataset _ _ df Hargs Hdf). simpl.
    rewrite Hinline.
    pose proof (analysis_from_state df (prop args "query")
                  (record_call (EnterHandleAnalyzeData args) s)) as (_ & _ & Hc).
    simpl in Hc. rewrite Hl in Hc. rewrite Hc. by rewrite <- app_assoc.
  - intros (df & Hdf & Hcalls).
    rewrite (handleAnalyzeData_with_dataset _ _ df Hargs Hdf) in Hcalls.
    rewrite Hdf. split; [done|].
    simpl in Hcalls. rewrite Hinline in Hcalls.
    pose proof (analysis_from_state df (prop args "query")
                  (record_call (EnterHandleAnalyzeData args) s)) as (_ & _ & Hc).
    simpl in Hc. rewrite Hc in Hcalls.
    destruct (truthy (currentLLM s)); [done|].
    rewrite <- app_assoc in Hcalls. apply app_inv_head in Hcalls. done.
Qed.

(** ** More on [/upload] *)

(** X13: [/upload] without a file is answered 400 with the session
    untouched. A file whose extension multer's filter rejects is answered
    by the error middleware, 500 with [{error, message}], nothing read and
    the session untouched; a file the filter accepts is read by
    [readCSVFile] or by [readExcelFile], so the handler's own
    unsupported-format branch is never taken. *)
Theorem upload_filter_guards_handler (f : UploadedFile) (s : State) :
  post_upload None s
  = (res_status_json 400 (error_body "请选择要上传的文件"), s)
  /\ match fileFilter f with
     | inr _ => load f = readCSVFile (path f) \/ load f = readExcelFile (path f)
     | inl _ =>
         post_upload (Some f) s
         = (res_status_json 500
              (JObj [("error", JStr "内部服务器错误");
                     ("message", JStr "不支持的文件格式。请上传CSV或Excel文件。")]), s)
     end.
Proof.
  split; [done|]. unfold post_upload, fileFilter, load. cbv zeta. simpl.
  destruct (String.eqb _ ".csv"); simpl; [by left|].
  destruct (String.eqb _ ".xlsx"); simpl; [by right|].
  destruct (String.eqb _ ".xls"); simpl; [by right|done].
Qed.

(** X14: for a [.csv] upload the stored table is the list of records the
    parser emitted, in order, and the preview its first five. When the
    stream ends in an error the answer is 500 with that error's message and
    the records emitted before it are dropped: the dataset is unchanged. *)
Theorem csv_upload_keeps_stream_order (f : UploadedFile) (s : State)
    (emitted : list (list (string * jsval))) (final : option exn) :
  toLowerCase (path_extname (originalname f)) = ".csv" ->
  csv_stream (path f) = (emitted, final) ->
  match final with
  | None =>
      currentDataframe (snd (post_upload (Some f) s)) = Some (dataframe_of f emitted)
      /\ (fs_unlinkSync (path f) = None ->
          fst (post_upload (Some f) s)
          = res_json (upload_ok (originalname f) (length emitted)
                        (first_row_keys emitted) (take 5 emitted)))
  | Some e =>
      fst (post_upload (Some f) s) = res_status_json 500 (error_body (message e))
      /\ currentDataframe (snd (post_upload (Some f) s)) = currentDataframe s
  end.
Proof.
  intros Hext Hstream.
  assert (Hload : load f s
                  = (match final with None => inr emitted | Some e => inl e end,
                     record_call (CallReadCSVFile (path f)) s)).
  { unfold load. cbv zeta. rewrite Hext. simpl.
    rewrite readCSVFile_eq, Hstream. by destruct final. }
  assert (Hfilter : fileFilter f = inr tt).
  { unfold fileFilter. cbv zeta. by rewrite Hext. }
  unfold post_upload. rewrite Hfilter, upload_handler_eq, Hload.
  destruct final as [e|]; [done|]. simpl.
  destruct (fs_unlinkSync (path f)); simpl; split; try done.
Qed.

(** X15: for an [.xlsx] or [.xls] upload the stored table is
    [sheet_to_json] of the sheet named first in [SheetNames] (of no sheet
    when the workbook has none), whatever other sheets there are; when
    [sheet_to_json] throws the answer is 500 with its message and the
    dataset is unchanged. *)
Theorem excel_upload_reads_first_sheet (f : UploadedFile) (s : State)
    (workbook : Workbook Sheet) :
  toLowerCase (path_extname (originalname f)) = ".xlsx"
  \/ toLowerCase (path_extname (originalname f)) = ".xls" ->
  XLSX_readFile (path f) = inr workbook ->
  match XLSX_sheet_to_json (Sheets workbook (head (SheetNames workbook))) with
  | inr table =>
      currentDataframe (snd (post_upload (Some f) s)) = Some (dataframe_of f table)
      /\ (fs_unlinkSync (path f) = None ->
          fst (post_upload (Some f) s)
          = res_json (upload_ok (originalname f) (length table)
                        (first_row_keys table) (take 5 table)))
  | inl e =>
      fst (post_upload (Some f) s) = res_status_json 500 (error_body (message e))
      /\ currentDataframe (snd (post_upload (Some f) s)) = currentDataframe s
  end.
Proof.
  intros Hext Hwb.
  assert (Hload : load f s
                  = (XLSX_sheet_to_json (Sheets workbook (head (SheetNames workbook))),
                     record_call (CallReadExcelFile (path f)) s)).
  { unfold load, readExcelFile. cbv zeta. unfold_monad.
    destruct Hext as [-> | ->]; simpl; rewrite Hwb;
      by destruct (XLSX_sheet_to_json _). }
  assert (Hfilter : fileFilter f = inr tt).
  { unfold fileFilter. cbv zeta. by destruct Hext as [-> | ->]. }
  unfold post_upload. rewrite Hfilter, upload_handler_eq, Hload.
  destruct (XLSX_sheet_to_json _) as [e|table]; [done|]. simpl.
  destruct (fs_unlinkSync (path f)); simpl; split; try done.
Qed.

(** X17: a file read as zero records is a successful upload with [rows]
    and [columns] zero and an empty preview, and it counts as a loaded
    dataset: a following [analyze_data] call passes the dataset check and
    fails on the missing backend instead. *)
Theorem empty_upload_counts_as_loaded (f : UploadedFile) (s : State) :
  fileFilter f = inr tt ->
  fst (load f s) = inr [] ->
  fs_unlinkSync (path f) = None ->
  let s' := snd (post_upload (Some f) s) in
  fst (post_upload (Some f) s) = res_json (upload_ok (originalname f) 0 0 [])
  /\ currentDataframe s'
     = Some {| data := []; filename := originalname f; rows := 0; columns := 0 |}
  /\ (forall args,
        nullish args = false ->
        truthy (prop args "llm_config") = false ->
        truthy (currentLLM s) = false ->
        fst (handleAnalyzeData args s') = inl (Error "数据分析失败: 请先配置LLM")).
Proof.
  intros Hfilter Hload Hunlink s'. subst s'.
  unfold post_upload. rewrite Hfilter, upload_handler_eq.
  destruct (load_state f s) as (_ & Hl & _).
  destruct (load f s) as [[e|table] s1]; simpl in Hload, Hl; [done|].
  injection Hload as ->. rewrite Hunlink. simpl.
  split; [done|]. split; [done|].
  intros args Hargs Hinline Hllm.
  erewrite handleAnalyzeData_with_dataset; [|done|done].
  simpl. rewrite Hinline. unfold analysis_from. simpl. by rewrite Hl, Hllm.
Qed.

(** ** More on [/sse] *)

Lemma timers_fresh (w : World) (id : nat) :
  timers_ok w -> next_timer w <= id -> timers w !! id = None.
Proof.
  intros Ht Hid. destruct (timers w !! id) as [tm|] eqn:Hlook; [|done].
  destruct (Ht id tm Hlook) as (Hlt & _). lia.
Qed.

Lemma open_size_alter (f : Connection -> Connection) (c : nat)
    (m : gmap nat Connection) :
  (forall conn, closed (f conn) = closed conn) ->
  size (filter (fun kv => closed (snd kv) = false) (alter f c m))
  = size (filter (fun kv => closed (snd kv) = false) m).
Proof.
  intros Hf. destruct (m !! c) as [conn|] eqn:Hc.
  - replace (alter f c m) with (<[c := f conn]> m).
    2: { apply map_eq. intros j. destruct (decide (c = j)) as [<-|Hne].
         - by rewrite lookup_insert_eq, lookup_alter_eq, Hc.
         - by rewrite lookup_insert_ne, lookup_alter_ne. }
    rewrite map_filter_insert. case_decide as Hopen; simpl in Hopen.
    + apply map_size_insert_Some. exists conn.
      apply map_lookup_filter_Some. split; [done|]. simpl. by rewrite <- Hf.
    + rewrite map_filter_delete. apply map_size_delete_None.
      apply map_lookup_filter_None. right. intros x Hx. simpl.
      rewrite Hc in Hx. injection Hx as <-. by rewrite <- Hf.
  - replace (alter f c m) with m; [done|].
    apply map_eq. intros j. destruct (decide (c = j)) as [<-|Hne].
    + by rewrite lookup_alter_eq, Hc.
    + by rewrite lookup_alter_ne.
Qed.

Lemma count_exec (l : Label) (w w' : World) :
  Inv w ->
  size (timers w) = 2 * size (open_connections w) ->
  exec l w = Some w' ->
  size (timers w') = 2 * size (open_connections w').
Proof.
  intros [Ht Hc] Hcount. unfold open_connections in *.
  destruct l as [c|c|id|t|r]; simpl.
  - destruct (connections w !! c) eqn:Hfresh; [done|].
    intros [= <-]. rewrite get_sse_eq. cbn [timers connections].
    rewrite map_filter_insert_True by done.
    rewrite (map_size_insert_None c);
      [|apply map_lookup_filter_None; by left].
    rewrite (map_size_insert_None (S (next_timer w)));
      [|rewrite lookup_insert_ne by lia; apply timers_fresh; [done|lia]].
    rewrite (map_size_insert_None (next_timer w)); [|by apply timers_fresh].
    lia.
  - destruct (connections w !! c) as [conn|] eqn:Hconn; [|done].
    destruct (closed conn) eqn:Hopen; [done|].
    intros [= <-].
    pose proof (Hc c conn Hconn) as Hok. rewrite Hopen in Hok.
    destruct Hok as (_ & (hb & st & Hl & Hne & Hhb & Hst) & _).
    unfold on_close, clearInterval. rewrite Hl. cbn [timers connections].
    rewrite map_filter_insert_False by (simpl; done).
    rewrite map_filter_delete.
    rewrite (map_size_delete_Some c);
      [|exists conn; apply map_lookup_filter_Some; by split].
    rewrite (map_size_delete_Some st);
      [|rewrite lookup_delete_ne by done; eauto].
    rewrite (map_size_delete_Some hb); [|eauto].
    assert (0 < size (filter (fun kv => closed (snd kv) = false) (connections w))).
    { destruct (size (filter (fun kv => closed (snd kv) = false) (connections w)))
        eqn:Hsz; [|lia].
      apply map_size_empty_inv in Hsz.
      assert (Hin : filter (fun kv => closed (snd kv) = false) (connections w) !! c
                    = Some conn) by (apply map_lookup_filter_Some; by split).
      by rewrite Hsz, lookup_empty in Hin. }
    lia.
  - destruct (timers w !! id) as [tm|] eqn:Hid; [|done].
    case_decide; [|done]. intros [= <-]. rewrite fire_eq. cbn [timers connections].
    rewrite map_size_insert_Some by eauto.
    by rewrite open_size_alter.
  - case_decide; [|done]. by intros [= <-].
  - by intros [= <-].
Qed.

Lemma count_run (ls : list Label) (w w' : World) :
  Inv w ->
  size (timers w) = 2 * size (open_connections w) ->
  run ls w = Some w' ->
  size (timers w') = 2 * size (open_connections w').
Proof.
  revert w. induction ls as [|l ls IH]; intros w HI Hcount; simpl.
  - by intros [= <-].
  - destruct (exec l w) as [w1|] eqn:Hexec; [|done].
    apply IH; [by apply (Inv_exec l w)|by apply (count_exec l w)].
Qed.

(** X18: in every state the process can reach there are exactly two
    armed timers per connected subscriber: every timer is the heartbeat or
    the status timer of a subscriber that has not disconnected, and every
    such subscriber has its heartbeat timer (30000 ms) and its status timer
    (60000 ms) armed under two different handles. *)
Theorem sse_no_timer_leak (t : Z) (ls : list Label) (w : World) :
  run ls (initial_world t) = Some w ->
  size (timers w) = 2 * size (open_connections w)
  /\ (forall id tm,
        timers w !! id = Some tm ->
        exists conn heartbeat statusInterval,
          connections w !! target (callback tm) = Some conn
          /\ closed conn = false
          /\ close_listener conn = Some (heartbeat, statusInterval)
          /\ (id = heartbeat \/ id = statusInterval))
  /\ (forall c conn,
        connections w !! c = Some conn ->
        closed conn = false ->
        exists heartbeat statusInterval dh ds,
          close_listener conn = Some (heartbeat, statusInterval)
          /\ heartbeat <> statusInterval
          /\ timers w !! heartbeat
             = Some {| callback := Heartbeat c; interval := 30000; due := dh |}
          /\ timers w !! statusInterval
             = Some {| callback := SendStatus c; interval := 60000; due := ds |}).
Proof.
  intros Hrun.
  pose proof (Inv_run _ _ _ (Inv_initial t) Hrun) as [Ht Hc].
  split; [|split].
  - apply (count_run ls (initial_world t)); [apply Inv_initial| |done].
    unfold open_connections. simpl.
    by rewrite map_filter_empty, !map_size_empty.
  - intros id tm Hid. destruct (Ht id tm Hid) as (_ & _ & Hown). exact Hown.
  - intros c conn Hconn Hopen. specialize (Hc c conn Hconn). rewrite Hopen in Hc.
    destruct Hc as (_ & (hb & st & Hl & Hne & Hhb & Hst) & _).
    by eexists hb, st, _, _.
Qed.

(** X19: subscribers do not affect each other. A step that belongs to
    another subscriber (its connecting, its disconnecting, one of its
    timers running), the passage of time and any request leave a
    subscriber's connection exactly as it was, and its two timers, if it
    is connected, as they were. *)
Theorem subscribers_independent
    (t : Z) (ls : list Label) (w w' : World) (l : Label) (c' : nat)
    (conn' : Connection) :
  run ls (initial_world t) = Some w ->
  exec l w = Some w' ->
  connections w !! c' = Some conn' ->
  match l with
  | LConnect c | LClose c => c <> c'
  | LFire id => forall tm, timers w !! id = Some tm -> target (callback tm) <> c'
  | LAdvance _ | LRequest _ => True
  end ->
  connections w' !! c' = Some conn'
  /\ (closed conn' = false ->
      exists heartbeat statusInterval,
        close_listener conn' = Some (heartbeat, statusInterval)
        /\ timers w' !! heartbeat = timers w !! heartbeat
        /\ timers w' !! statusInterval = timers w !! statusInterval).
Proof.
  intros Hrun Hexec Hconn' Hother.
  pose proof (Inv_run _ _ _ (Inv_initial t) Hrun) as [Ht Hc].
  assert (Hmine : closed conn' = false ->
            exists hb st dh ds,
              close_listener conn' = Some (hb, st)
              /\ timers w !! hb
                 = Some {| callback := Heartbeat c'; interval := 30000; due := dh |}
              /\ timers w !! st
                 = Some {| callback := SendStatus c'; interval := 60000; due := ds |}).
  { intros Hopen. pose proof (Hc c' conn' Hconn') as Hok. rewrite Hopen in Hok.
    destruct Hok as (_ & (hb & st & Hl & _ & Hhb & Hst) & _).
    by eexists hb, st, _, _. }
  destruct l as [c|c|id|t'|r]; simpl in Hexec.
  - destruct (connections w !! c) eqn:Hfresh; [done|]. injection Hexec as <-.
    rewrite get_sse_eq. cbn [timers connections].
    split; [by rewrite lookup_insert_ne|].
    intros Hopen. destruct (Hmine Hopen) as (hb & st & dh & ds & Hl & Hhb & Hst).
    exists hb, st. split; [done|].
    destruct (Ht _ _ Hhb) as (? & _). destruct (Ht _ _ Hst) as (? & _).
    by rewrite !lookup_insert_ne by lia.
  - destruct (connections w !! c) as [conn|] eqn:Hconn; [|done].
    destruct (closed conn) eqn:Hopen0; [done|]. injection Hexec as <-.
    pose proof (Hc c conn Hconn) as Hok. rewrite Hopen0 in Hok.
    destruct Hok as (_ & (hb0 & st0 & Hl0 & _ & Hhb0 & Hst0) & _).
    unfold on_close, clearInterval. rewrite Hl0. cbn [timers connections].
    split; [by rewrite lookup_insert_ne|].
    intros Hopen. destruct (Hmine Hopen) as (hb & st & dh & ds & Hl & Hhb & Hst).
    exists hb, st. split; [done|].
    assert (hb <> hb0) by (intros ->; rewrite Hhb0 in Hhb; congruence).
    assert (hb <> st0) by (intros ->; rewrite Hst0 in Hhb; congruence).
    assert (st <> hb0) by (intros ->; rewrite Hhb0 in Hst; congruence).
    assert (st <> st0) by (intros ->; rewrite Hst0 in Hst; congruence).
    by rewrite !lookup_delete_ne.
  - destruct (timers w !! id) as [tm|] eqn:Hid; [|done].
    case_decide; [|done]. injection Hexec as <-.
    rewrite fire_eq. cbn [timers connections].
    specialize (Hother tm eq_refl).
    split; [by rewrite lookup_alter_ne|].
    intros Hopen. destruct (Hmine Hopen) as (hb & st & dh & ds & Hl & Hhb & Hst).
    exists hb, st. split; [done|].
    assert (hb <> id) by (intros ->; rewrite Hid in Hhb; injection Hhb as ->; done).
    assert (st <> id) by (intros ->; rewrite Hid in Hst; injection Hst as ->; done).
    by rewrite !lookup_insert_ne.
  - case_decide; [|done]. injection Hexec as <-. cbn [timers connections].
    split; [done|]. intros Hopen.
    destruct (Hmine Hopen) as (hb & st & dh & ds & Hl & Hhb & Hst).
    by exists hb, st.
  - injection Hexec as <-. cbn [timers connections].
    split; [done|]. intros Hopen.
    destruct (Hmine Hopen) as (hb & st & dh & ds & Hl & Hhb & Hst).
    by exists hb, st.
Qed.

Lemma heartbeat_event_type (t : Z) :
  prop (heartbeat_event t) "type" = JStr "heartbeat".
Proof. done. Qed.

Lemma status_event_type (s : State) (t : Z) :
  prop (status_event s t) "type" = JStr "status".
Proof. done. Qed.

Lemma inventory_exec (l : Label) (w w' : World) :
  (forall c conn,
     connections w !! c = Some conn ->
     times_of "connection" (written conn) = [opened_at conn]
     /\ length (written conn) = 1 + heartbeats conn + statuses conn) ->
  exec l w = Some w' ->
  forall c conn,
    connections w' !! c = Some conn ->
    times_of "connection" (written conn) = [opened_at conn]
    /\ length (written conn) = 1 + heartbeats conn + statuses conn.
Proof.
  intros Hw. destruct l as [c0|c0|id|t|r]; simpl.
  - destruct (connections w !! c0) eqn:Hfresh; [done|]. intros [= <-].
    rewrite get_sse_eq. cbn [connections]. intros c conn Hconn.
    apply lookup_insert_Some in Hconn as [[<- <-]|[_ Hconn]]; [|by apply (Hw c)].
    done.
  - destruct (connections w !! c0) as [conn0|] eqn:Hconn0; [|done].
    destruct (closed conn0); [done|]. intros [= <-].
    unfold on_close. cbn [connections]. intros c conn Hconn.
    apply lookup_insert_Some in Hconn as [[<- <-]|[_ Hconn]].
    + apply (Hw c0 conn0 Hconn0).
    + apply (Hw c). by destruct (close_listener conn0) as [[]|].
  - destruct (timers w !! id) as [tm|] eqn:Hid; [|done].
    case_decide; [|done]. intros [= <-]. rewrite fire_eq. cbn [connections].
    intros c conn Hconn.
    destruct (decide (target (callback tm) = c)) as [Heq|Hne].
    2: { rewrite lookup_alter_ne in Hconn by done. by apply (Hw c). }
    rewrite Heq, lookup_alter_eq in Hconn.
    destruct (connections w !! c) as [conn0|] eqn:Hconn0; [|done].
    injection Hconn as <-. destruct (Hw c conn0 Hconn0) as [Hfirst Hlen].
    assert (Hne : written conn0 <> []) by (intros Hnil; by rewrite Hnil in Hlen).
    rewrite (opened_at_append _ _ _ Hne).
    unfold heartbeats, statuses in *. cbn [append_chunk written].
    rewrite !times_of_snoc, !length_app. cbn [length].
    destruct (callback tm); cbn [fired_payload].
    + rewrite !heartbeat_event_type. simpl. rewrite ?app_nil_r.
      split; [done|lia].
    + rewrite !status_event_type. simpl. rewrite ?app_nil_r.
      split; [done|lia].
  - case_decide; [|done]. intros [= <-]. exact Hw.
  - intros [= <-]. exact Hw.
Qed.

Lemma inventory_run (ls : list Label) (w w' : World) :
  (forall c conn,
     connections w !! c = Some conn ->
     times_of "connection" (written conn) = [opened_at conn]
     /\ length (written conn) = 1 + heartbeats conn + statuses conn) ->
  run ls w = Some w' ->
  forall c conn,
    connections w' !! c = Some conn ->
    times_of "connection" (written conn) = [opened_at conn]
    /\ length (written conn) = 1 + heartbeats conn + statuses conn.
Proof.
  revert w. induction ls as [|l ls IH]; intros w Hw; simpl.
  - by intros [= <-].
  - destruct (exec l w) as [w1|] eqn:Hexec; [|done].
    apply IH. exact (inventory_exec l w w1 Hw Hexec).
Qed.

(** X20: what a subscriber has been sent is one [connection] event,
    written when it subscribed, and otherwise only [heartbeat] and [status]
    events. *)
Theorem reachable_chunk_inventory
    (t : Z) (ls : list Label) (w : World) (c : nat) (conn : Connection) :
  run ls (initial_world t) = Some w ->
  connections w !! c = Some conn ->
  times_of "connection" (written conn) = [opened_at conn]
  /\ length (written conn)
     = 1 + length (times_of "heartbeat" (written conn))
         + length (times_of "status" (written conn)).
Proof.
  intros Hrun Hconn.
  refine (inventory_run ls (initial_world t) w _ Hrun c conn Hconn).
  intros c0 conn0 Hc0. simpl in Hc0. by rewrite lookup_empty in Hc0.
Qed.

(** ** The two ways into [handleAnalyzeData] *)

Lemma analysis_from_record_call (df : Dataframe) (query : jsval) (s1 : State)
    (c : Call) :
  fst (analysis_from df query (record_call c s1)) = fst (analysis_from df query s1)
  /\ currentLLM (snd (analysis_from df query (record_call c s1)))
     = currentLLM (snd (analysis_from df query s1)).
Proof.
  unfold analysis_from. simpl. destruct (truthy (currentLLM s1)); [|done].
  destruct (analyze df query (currentLLM s1)) as [e|result]; [done|].
  by destruct (nullish result).
Qed.




End Properties.

(** ** The statements at concrete inputs *)

Section Examples.

#[local] Existing Instances Sample.runtime Sample.mcp_handler Sample.analyzer
  Sample.llm_manager Sample.files.

(** The scenario of the specification: upload the two-record table, ask
    without a backend, configure one through [tools/call], ask again. *)
Example upload_configure_analyze :
  let s1 := snd (post_upload (Some Sample.people_csv) initial_state) in
  let ask := JObj [("query", JStr "count rows")] in
  let configure :=
    JObj [("method", JStr "tools/call");
          ("params", JObj [("name", JStr "configure_llm");
                           ("arguments", JObj [("model", JStr "gpt-4")])])] in
  let s2 := snd (post_mcp configure s1) in
  fst (post_analyze ask s1) = res_status_json 500 (error_body "数据分析失败: 请先配置LLM")
  /\ fst (post_mcp configure s1)
     = res_json (JObj [("result", text_content (JStr "LLM配置成功: gpt-4"))])
  /\ fst (post_analyze ask s2) = res_json (text_content (JStr "2 rows"))
  /\ fst (post_analyze (DA := Sample.silent_analyzer) ask s2)
     = res_json (text_content (JStr "分析完成"))
  /\ prop (body (get_status 0 s2)) "data_loaded" = JBool true
  /\ prop (body (get_status 0 s2)) "llm_configured" = JBool true
  /\ prop (body (get_status 0 initial_state)) "dataframe_info" = JNull.
Proof. repeat split. Qed.

(** The falsy values of [query]. *)
Example falsy_queries :
  Forall (fun query =>
            post_analyze (JObj [("query", query)]) Sample.people_and_backend
            = post_analyze (JObj []) Sample.people_and_backend)
         [JUndefined; JNull; JBool false; JNum (number_of_Z 0);
          JNum (S754_zero true); JNum S754_nan; JStr ""].
Proof. repeat constructor. Qed.

(** How a template literal renders values, and where it throws. *)
Example template_renderings :
  to_string (JStr "resources/list") = inr "resources/list"
  /\ to_string JUndefined = inr "undefined"
  /\ to_string (JNum (number_of_Z 12)) = inr "12"
  /\ to_string (JArr [JStr "a"; JNull; JArr [JBool true; JUndefined]]) = inr "a,,true,"
  /\ to_string (JObj [("name", JStr "x")]) = inr "[object Object]"
  /\ to_string (JObj [("toString", JStr "x")])
     = inl (Error "Cannot convert object to primitive value")
  /\ to_string (JArr [JStr "a"; JObj [("toString", JNull)]])
     = inl (Error "Cannot convert object to primitive value").
Proof. repeat split. Qed.

(** A method and a tool name that no template literal can render: the
    envelope is the same, the message is the TypeError's. *)
Example unrenderable_method_and_tool :
  post_mcp (JObj [("method", JObj [("toString", JStr "x")])]) initial_state
  = (res_status_json 400 (mcp_error "Cannot convert object to primitive value"),
     initial_state)
  /\ fst (post_mcp
            (JObj [("method", JStr "tools/call");
                   ("params", JObj [("name", JObj [("toString", JStr "x")])])])
            initial_state)
     = res_status_json 400 (mcp_error "Cannot convert object to primitive value").
Proof. repeat split. Qed.


Lemma handleToolCall_unknown_tool_witness :
  handleToolCall (JObj [("name", JStr "summarize")]) initial_state
  = (inl (Error "未知的工具: summarize"),
     record_call (EnterHandleToolCall (JObj [("name", JStr "summarize")]))
       initial_state).
Proof.
  exact (proj1 (handleToolCall_unknown_tool
                  (JObj [("name", JStr "summarize")]) initial_state
                  eq_refl eq_refl)).
Defined.

(** Without a dataset the upload-first failure wins even with a backend
    configured and a configuration inline; with a dataset and nothing else
    the configure-first failure follows. *)
Lemma handleAnalyzeData_precondition_order_witness :
  handleAnalyzeData Sample.args_with_config Sample.backend_only
  = (inl (Error "数据分析失败: 请先上传数据文件"),
     record_call (EnterHandleAnalyzeData Sample.args_with_config) Sample.backend_only)
  /\ handleAnalyzeData Sample.args_plain Sample.people_loaded
     = (inl (Error "数据分析失败: 请先配置LLM"),
        record_call (EnterHandleAnalyzeData Sample.args_plain) Sample.people_loaded).
Proof.
  split.
  - exact (proj1 (proj1 (handleAnalyzeData_precondition_order
                           Sample.args_with_config Sample.backend_only eq_refl)
                    eq_refl)).
  - exact (proj2 (handleAnalyzeData_precondition_order
                    Sample.args_plain Sample.people_loaded eq_refl)
             _ eq_refl eq_refl eq_refl).
Defined.

Lemma post_analyze_falsy_query_witness :
  post_analyze (JObj [("query", JStr "")]) Sample.people_and_backend
  = (res_status_json 400 (error_body "请提供分析查询"), Sample.people_and_backend).
Proof.
  exact (proj1 (post_analyze_falsy_query
                  (JObj [("query", JStr "")]) Sample.people_and_backend
                  eq_refl eq_refl)).
Defined.

(** With a dataset loaded, the inline configuration replaces the backend
    that was there. *)
Lemma handleAnalyzeData_inline_config_witness :
  currentLLM (snd (handleAnalyzeData Sample.args_with_config Sample.people_and_backend))
  = JObj [("provider", JStr "openai"); ("model", JStr "gpt-4")].
Proof.
  exact (proj1 (proj1 (handleAnalyzeData_inline_config
                         Sample.args_with_config Sample.people_and_backend
                         (JObj [("provider", JStr "openai"); ("model", JStr "gpt-4")])
                         eq_refl eq_refl eq_refl)
                  _ eq_refl)).
Defined.

(** C3 as stated fails: with no dataset loaded, a call that carries an
    inline configuration the configurator would accept ends without the
    configurator being called and with [currentLLM] still [null]. *)
Lemma inline_config_skipped_without_dataset :
  truthy (prop Sample.args_with_config "llm_config") = true
  /\ configureLLM (prop Sample.args_with_config "llm_config")
     = inr (JObj [("provider", JStr "openai"); ("model", JStr "gpt-4")])
  /\ handleAnalyzeData Sample.args_with_config initial_state
     = (inl (Error "数据分析失败: 请先上传数据文件"),
        {| currentDataframe := None;
           currentLLM := JNull;
           calls := [EnterHandleAnalyzeData Sample.args_with_config] |})
  /\ currentLLM (snd (handleAnalyzeData Sample.args_with_config initial_state))
     <> JObj [("provider", JStr "openai"); ("model", JStr "gpt-4")].
Proof. repeat split. discriminate. Qed.

(** A configurator failure and an engine failure inside [handleAnalyzeData]
    both come out under the prefix of [handleAnalyzeData]. *)
Lemma handleAnalyzeData_failure_prefix_witness :
  fst (handleAnalyzeData (LM := Sample.failing_llm_manager)
         Sample.args_with_config Sample.people_loaded)
  = inl (Error "数据分析失败: missing api key")
  /\ fst (handleAnalyzeData (DA := Sample.failing_analyzer)
            Sample.args_plain Sample.people_and_backend)
     = inl (Error "数据分析失败: engine unavailable")
  /\ fst (handleConfigureLLM (LM := Sample.failing_llm_manager)
            (JObj [("model", JStr "gpt-4")]) initial_state)
     = inl (Error "LLM配置失败: missing api key").
Proof.
  split; [|split].
  - exact (proj1 (proj2 (handleAnalyzeData_failure_prefix
                           (LM := Sample.failing_llm_manager)
                           Sample.args_with_config Sample.people_loaded))
             _ (Error "missing api key") eq_refl eq_refl eq_refl eq_refl).
  - exact (proj1 (proj2 (proj2 (handleAnalyzeData_failure_prefix
                                  (DA := Sample.failing_analyzer)
                                  Sample.args_plain Sample.people_and_backend)))
             _ (Error "engine unavailable") eq_refl eq_refl eq_refl eq_refl eq_refl).
  - exact (proj2 (proj2 (proj2 (proj2 (handleAnalyzeData_failure_prefix
                                         (LM := Sample.failing_llm_manager)
                                         (JObj [("model", JStr "gpt-4")])
                                         initial_state))))
             (Error "missing api key") eq_refl).
Defined.

(** C5 as stated fails: it gives the two steps two different prefixes, but
    a failure of the inline configuration and a failure of the engine carry
    the same one, and neither carries the prefix of [handleConfigureLLM]. *)
Lemma one_prefix_for_both_steps :
  fst (handleAnalyzeData (LM := Sample.failing_llm_manager)
         Sample.args_with_config Sample.people_loaded)
  = inl (Error "数据分析失败: missing api key")
  /\ fst (handleAnalyzeData (LM := Sample.failing_llm_manager)
            Sample.args_with_config Sample.people_loaded)
     <> inl (Error "LLM配置失败: missing api key")
  /\ fst (handleAnalyzeData (DA := Sample.failing_analyzer)
            Sample.args_plain Sample.people_and_backend)
     = inl (Error "数据分析失败: engine unavailable")
  /\ fst (handleAnalyzeData (DA := Sample.failing_analyzer)
            Sample.args_plain Sample.people_and_backend)
     <> inl (Error "LLM配置失败: engine unavailable").
Proof. repeat split; discriminate. Qed.

(** Uploading [seven.csv] over a loaded [people] table. *)
Lemma post_upload_replaces_dataset_witness :
  exists f table d,
    Some Sample.seven_csv = Some f
    /\ fst (load f Sample.people_loaded) = inr table
    /\ currentDataframe (snd (post_upload (Some Sample.seven_csv) Sample.people_loaded))
       = Some d
    /\ data d = table
    /\ filename d = originalname f
    /\ rows d = length (data d)
    /\ columns d = match data d with
                   | [] => 0
                   | first :: _ => length (Object_keys first)
                   end
    /\ (forall s0,
          currentDataframe (snd (post_upload (Some Sample.seven_csv) s0)) = Some d).
Proof.
  exact (post_upload_replaces_dataset (Some Sample.seven_csv) Sample.people_loaded
           eq_refl).
Defined.

Example upload_people_then_seven :
  currentDataframe
    (snd (post_upload (Some Sample.seven_csv)
            (snd (post_upload (Some Sample.people_csv) initial_state))))
  = Some {| data := Sample.seven; filename := "seven.csv"; rows := 7; columns := 1 |}.
Proof. reflexivity. Qed.

(** The preview of the seven-record table has its first five records; a CSV
    file that cannot be parsed gives a 500. *)
Lemma post_upload_response_witness :
  (exists f table,
     Some Sample.seven_csv = Some f
     /\ fst (load f initial_state) = inr table
     /\ currentDataframe (snd (post_upload (Some Sample.seven_csv) initial_state))
        = Some (dataframe_of f table)
     /\ body (fst (post_upload (Some Sample.seven_csv) initial_state))
        = JObj [("message", JStr "文件上传成功");
                ("filename", JStr (originalname f));
                ("rows", JNum (number_of_nat (length table)));
                ("columns", JNum (number_of_nat (first_row_keys table)));
                ("preview", JArr (map JObj (take 5 table)))]
     /\ length (take 5 table) = Nat.min 5 (length table)
     /\ (forall i, i < 5 -> take 5 table !! i = table !! i)
     /\ (length table <= 5 -> take 5 table = table))
  /\ fst (post_upload (Some Sample.broken_csv) initial_state)
     = res_status_json 500 (error_body "Invalid Record Length").
Proof.
  split.
  - exact (proj1 (post_upload_response (Some Sample.seven_csv) initial_state) eq_refl).
  - exact (proj2 (post_upload_response (Some Sample.broken_csv) initial_state)
             Sample.broken_csv (Error "Invalid Record Length")
             eq_refl eq_refl eq_refl).
Defined.

Example preview_of_seven :
  prop (body (fst (post_upload (Some Sample.seven_csv) initial_state))) "preview"
  = JArr (map JObj (take 5 Sample.seven))
  /\ length (take 5 Sample.seven) = 5
  /\ prop (body (fst (post_upload (Some Sample.people_csv) initial_state))) "preview"
     = JArr (map JObj Sample.people).
Proof. repeat split. Qed.

Lemma post_upload_load_failure_witness :
  status (fst (post_upload (Some Sample.broken_csv) Sample.people_loaded)) = 500%Z
  /\ currentDataframe (snd (post_upload (Some Sample.broken_csv) Sample.people_loaded))
     = currentDataframe Sample.people_loaded
  /\ currentLLM (snd (post_upload (Some Sample.broken_csv) Sample.people_loaded))
     = currentLLM Sample.people_loaded
  /\ (fileFilter Sample.broken_csv = inr tt ->
      body (fst (post_upload (Some Sample.broken_csv) Sample.people_loaded))
      = error_body "Invalid Record Length").
Proof.
  exact (post_upload_load_failure Sample.broken_csv Sample.people_loaded
           (Error "Invalid Record Length") eq_refl).
Defined.

(** Subscriber 7 at time 61000, still connected after two heartbeats and
    two statuses, and the same subscriber after it has disconnected. *)
Lemma sse_connection_lifecycle_witness :
  let t0 := 1000%Z in
  let lifecycle (w : World) :=
    exists conn,
      connections w !! 7 = Some conn
      /\ [(t0, JObj [("type", JStr "connection");
                     ("message", JStr "已连接到PandasAI MCP服务");
                     ("timestamp", JStr (toISOString t0))]);
          (t0, status_event initial_state t0)] `prefix_of` written conn
      /\ prop (prop (status_event initial_state t0) "data") "dataLoaded"
         = JBool (bool_decide (is_Some (currentDataframe initial_state)))
      /\ prop (prop (status_event initial_state t0) "data") "llmConfigured"
         = JBool (not_null (currentLLM initial_state))
      /\ (closed conn = false ->
          times_of "heartbeat" (written conn)
          = every 30000 (t0 + 30000) (heartbeats conn)
          /\ times_of "status" (written conn) = every 60000 t0 (statuses conn)
          /\ (t0 + 30000 * Z.of_nat (heartbeats conn) <= now w
              <= t0 + 30000 * (Z.of_nat (heartbeats conn) + 1))%Z
          /\ (t0 + 60000 * (Z.of_nat (statuses conn) - 1) <= now w
              <= t0 + 60000 * Z.of_nat (statuses conn))%Z)
      /\ (closed conn = true ->
          (exists heartbeat statusInterval,
             close_listener conn = Some (heartbeat, statusInterval)
             /\ timers w !! heartbeat = None
             /\ timers w !! statusInterval = None)
          /\ (forall id tm, timers w !! id = Some tm -> target (callback tm) <> 7)
          /\ (forall later w',
                run later w = Some w' -> connections w' !! 7 = Some conn)) in
  lifecycle (Sample.world_after (LConnect 7 :: Sample.while_subscribed))
  /\ lifecycle (Sample.world_after (LConnect 7 :: Sample.then_disconnected)).
Proof.
  split.
  - apply (sse_connection_lifecycle 1000 [] Sample.while_subscribed 7
             (initial_world 1000)
             (Sample.world_after (LConnect 7 :: Sample.while_subscribed)));
      vm_compute; reflexivity.
  - apply (sse_connection_lifecycle 1000 [] Sample.then_disconnected 7
             (initial_world 1000)
             (Sample.world_after (LConnect 7 :: Sample.then_disconnected)));
      vm_compute; reflexivity.
Defined.

Example subscriber_events :
  (written <$> connections (Sample.world_after (LConnect 7 :: Sample.then_disconnected)) !! 7)
  = Some [(1000%Z, connection_event 1000);
          (1000%Z, status_event initial_state 1000);
          (31000%Z, heartbeat_event 31000);
          (61000%Z, status_event
                      (set_currentLLM
                         (JObj [("provider", JStr "openai");
                                ("model", JStr "gpt-4")]) initial_state) 61000);
          (61000%Z, heartbeat_event 61000)]
  /\ timers (Sample.world_after (LConnect 7 :: Sample.then_disconnected)) = ∅
  /\ run [LFire 0] (Sample.world_after (LConnect 7 :: Sample.then_disconnected)) = None
  /\ run [LAdvance 31001] (Sample.world_after [LConnect 7]) = None.
Proof. vm_compute. repeat split. Qed.

(** *** Further statements at concrete inputs *)

Lemma dataset_written_only_by_upload_witness :
  currentDataframe
    (session (Sample.world_after
                (Sample.busy_session ++ LConnect 7 :: Sample.while_subscribed)))
  = currentDataframe (session (Sample.world_after Sample.busy_session)).
Proof.
  apply (dataset_written_only_by_upload (LConnect 7 :: Sample.while_subscribed)).
  - repeat constructor; discriminate.
  - vm_compute. reflexivity.
Defined.

Lemma reachable_backend_witness :
  currentLLM (session (Sample.world_after Sample.busy_session)) = JNull
  \/ exists config,
       configureLLM config
       = inr (currentLLM (session (Sample.world_after Sample.busy_session))).
Proof.
  apply (reachable_backend 1000 Sample.busy_session). vm_compute. reflexivity.
Defined.

Lemma reachable_dataset_counts_witness :
  let d := {| data := Sample.seven; filename := "seven.csv"; rows := 7; columns := 1 |} in
  rows d = length (data d)
  /\ columns d = match data d with
                 | [] => 0
                 | first :: _ => length (Object_keys first)
                 end.
Proof.
  apply (reachable_dataset_counts 1000 Sample.busy_session
           (Sample.world_after Sample.busy_session));
    vm_compute; reflexivity.
Defined.

Lemma post_analyze_status_witness :
  status (fst (post_analyze (JObj [("query", JBool false)]) Sample.people_and_backend))
  = 400%Z
  /\ fst (handleAnalyzeData
            (JObj [("query", prop Sample.args_plain "query");
                   ("llm_config", prop Sample.args_plain "llm_config")])
            Sample.people_and_backend)
     = inr (body (fst (post_analyze Sample.args_plain Sample.people_and_backend))).
Proof.
  split.
  - apply (proj1 (post_analyze_status (JObj [("query", JBool false)])
                    Sample.people_and_backend)).
    split; reflexivity.
  - apply (proj2 (proj2 (post_analyze_status Sample.args_plain
                           Sample.people_and_backend))).
    reflexivity.
Defined.

(** A body without [model], and a body whose [model] cannot be rendered. *)
Lemma post_configure_llm_outcome_witness :
  (currentLLM (snd (post_configure_llm (JObj [("provider", JStr "openai")])
                      Sample.people_and_backend))
   = JObj [("provider", JStr "openai"); ("model", JUndefined)]
   /\ fst (post_configure_llm (JObj [("provider", JStr "openai")])
             Sample.people_and_backend)
      = res_json (text_content (JStr "LLM配置成功: undefined")))
  /\ (currentLLM
        (snd (post_configure_llm
                (JObj [("model", JObj [("toString", JStr "x")])])
                Sample.people_and_backend))
      = JObj [("provider", JStr "openai");
              ("model", JObj [("toString", JStr "x")])]
      /\ fst (post_configure_llm
                (JObj [("model", JObj [("toString", JStr "x")])])
                Sample.people_and_backend)
         = res_status_json 500
             (error_body "LLM配置失败: Cannot convert object to primitive value")).
Proof.
  split.
  - exact (proj2 (post_configure_llm_outcome (JObj [("provider", JStr "openai")])
                    Sample.people_and_backend eq_refl)).
  - exact (proj2 (post_configure_llm_outcome
                    (JObj [("model", JObj [("toString", JStr "x")])])
                    Sample.people_and_backend eq_refl)).
Defined.

Lemma configure_llm_without_arguments_witness :
  fst (handleToolCall (JObj [("name", JStr "configure_llm")]) initial_state)
  = inl (Error "LLM配置失败: Cannot read properties of undefined (reading 'model')")
  /\ currentLLM (snd (handleToolCall (JObj [("name", JStr "configure_llm")])
                        initial_state))
     = JObj [("provider", JStr "openai"); ("model", JUndefined)].
Proof.
  exact (configure_llm_without_arguments (JObj [("name", JStr "configure_llm")])
           initial_state (JObj [("provider", JStr "openai"); ("model", JUndefined)])
           eq_refl eq_refl eq_refl eq_refl).
Defined.

Lemma handleAnalyzeData_answer_witness :
  fst (handleAnalyzeData (DA := Sample.silent_analyzer)
         Sample.args_plain Sample.people_and_backend)
  = inr (text_content (JStr "分析完成")).
Proof.
  exact (handleAnalyzeData_answer (DA := Sample.silent_analyzer)
           Sample.args_plain Sample.people_and_backend _ (JObj [])
           eq_refl eq_refl eq_refl eq_refl eq_refl).
Defined.

Lemma configure_then_analyze_witness :
  let s1 := snd (handleConfigureLLM (JObj [("model", JStr "gpt-4")])
                   Sample.people_loaded) in
  calls (snd (handleAnalyzeData Sample.args_plain s1))
  = calls s1
      ++ [EnterHandleAnalyzeData Sample.args_plain;
          CallAnalyze {| data := Sample.people; filename := "people.csv";
                         rows := 2; columns := 2 |}
            (JStr "count rows")
            (JObj [("provider", JStr "openai"); ("model", JStr "gpt-4")])].
Proof.
  exact (configure_then_analyze (JObj [("model", JStr "gpt-4")]) Sample.args_plain
           Sample.people_loaded _
           (JObj [("provider", JStr "openai"); ("model", JStr "gpt-4")])
           eq_refl eq_refl eq_refl eq_refl eq_refl eq_refl).
Defined.


(** With [undefined] in [currentLLM] the two backend flags differ. *)
Lemma status_flags_agree_witness :
  prop (body (get_status 0 Sample.people_and_backend)) "llm_configured"
  = prop (prop (status_event Sample.people_and_backend 0) "data") "llmConfigured"
  /\ prop (body (get_status 0 (set_currentLLM JUndefined initial_state))) "llm_configured"
     <> prop (prop (status_event (set_currentLLM JUndefined initial_state) 0) "data")
          "llmConfigured".
Proof.
  split.
  - apply (proj2 (status_flags_agree Sample.people_and_backend 0)).
    right. reflexivity.
  - intros Heq.
    apply (proj2 (status_flags_agree (set_currentLLM JUndefined initial_state) 0))
      in Heq.
    destruct Heq as [Heq|Heq]; discriminate Heq.
Defined.

Lemma status_predicts_analysis_witness :
  exists df,
    currentDataframe Sample.people_and_backend = Some df
    /\ calls (snd (handleAnalyzeData Sample.args_plain Sample.people_and_backend))
       = calls Sample.people_and_backend
           ++ [EnterHandleAnalyzeData Sample.args_plain;
               CallAnalyze df (prop Sample.args_plain "query")
                 (currentLLM Sample.people_and_backend)].
Proof.
  apply (status_predicts_analysis Sample.args_plain Sample.people_and_backend 0
           eq_refl eq_refl).
  split; reflexivity.
Defined.

Lemma csv_upload_keeps_stream_order_witness :
  (currentDataframe (snd (post_upload (Some Sample.seven_csv) Sample.people_loaded))
   = Some (dataframe_of Sample.seven_csv Sample.seven)
   /\ (fs_unlinkSync (path Sample.seven_csv) = None ->
       fst (post_upload (Some Sample.seven_csv) Sample.people_loaded)
       = res_json (upload_ok (originalname Sample.seven_csv) (length Sample.seven)
                     (first_row_keys Sample.seven) (take 5 Sample.seven))))
  /\ (fst (post_upload (Some Sample.broken_csv) Sample.people_loaded)
      = res_status_json 500 (error_body "Invalid Record Length")
      /\ currentDataframe (snd (post_upload (Some Sample.broken_csv) Sample.people_loaded))
         = currentDataframe Sample.people_loaded).
Proof.
  split.
  - exact (csv_upload_keeps_stream_order Sample.seven_csv Sample.people_loaded
             Sample.seven None eq_refl eq_refl).
  - exact (csv_upload_keeps_stream_order Sample.broken_csv Sample.people_loaded
             [hd [] Sample.people] (Some (Error "Invalid Record Length"))
             eq_refl eq_refl).
Defined.

Lemma excel_upload_reads_first_sheet_witness :
  currentDataframe (snd (post_upload (Some Sample.people_xlsx) initial_state))
  = Some (dataframe_of Sample.people_xlsx Sample.people)
  /\ (fs_unlinkSync (path Sample.people_xlsx) = None ->
      fst (post_upload (Some Sample.people_xlsx) initial_state)
      = res_json (upload_ok (originalname Sample.people_xlsx) (length Sample.people)
                    (first_row_keys Sample.people) (take 5 Sample.people))).
Proof.
  exact (excel_upload_reads_first_sheet Sample.people_xlsx initial_state
           (mkWorkbook ["Sheet1"]
              (fun n => match n with Some "Sheet1" => Some Sample.people | _ => None end))
           (or_introl eq_refl) eq_refl).
Defined.

Lemma post_upload_unlink_failure_witness :
  status (fst (post_upload (FS := Sample.locked_files) (Some Sample.people_csv)
                 initial_state)) = 500%Z
  /\ currentDataframe
       (snd (post_upload (FS := Sample.locked_files) (Some Sample.people_csv)
               initial_state))
     = Some (dataframe_of Sample.people_csv Sample.people).
Proof.
  exact (post_upload_unlink_failure (FS := Sample.locked_files) Sample.people_csv
           initial_state Sample.people
           (Error "EPERM: operation not permitted, unlink")
           eq_refl eq_refl eq_refl).
Defined.

Lemma empty_upload_counts_as_loaded_witness :
  fst (post_upload (FS := Sample.empty_files) (Some Sample.empty_csv) initial_state)
  = res_json (upload_ok "empty.csv" 0 0 [])
  /\ fst (handleAnalyzeData Sample.args_plain
            (snd (post_upload (FS := Sample.empty_files) (Some Sample.empty_csv)
                    initial_state)))
     = inl (Error "数据分析失败: 请先配置LLM").
Proof.
  pose proof (empty_upload_counts_as_loaded (FS := Sample.empty_files)
                Sample.empty_csv initial_state) as Hempty.
  destruct Hempty as (Hres & _ & Hana); [reflexivity..|].
  split; [exact Hres|].
  apply Hana; reflexivity.
Defined.

Lemma sse_no_timer_leak_witness :
  size (timers (Sample.world_after Sample.two_subscribers)) = 4
  /\ size (open_connections (Sample.world_after Sample.two_subscribers)) = 2
  /\ size (timers (Sample.world_after (Sample.two_subscribers ++ [LClose 7])))
     = 2 * size (open_connections
                   (Sample.world_after (Sample.two_subscribers ++ [LClose 7]))).
Proof.
  split; [vm_compute; reflexivity|]. split; [vm_compute; reflexivity|].
  apply (sse_no_timer_leak 1000 (Sample.two_subscribers ++ [LClose 7])).
  vm_compute. reflexivity.
Defined.

Lemma subscribers_independent_witness :
  let conn8 :=
    {| written := [(2000%Z, connection_event 2000);
                   (2000%Z, status_event initial_state 2000)];
       close_listener := Some (2, 3);
       closed := false |} in
  connections (Sample.world_after (Sample.two_subscribers ++ [LClose 7])) !! 8
  = Some conn8
  /\ (closed conn8 = false ->
      exists heartbeat statusInterval,
        close_listener conn8 = Some (heartbeat, statusInterval)
        /\ timers (Sample.world_after (Sample.two_subscribers ++ [LClose 7]))
             !! heartbeat
           = timers (Sample.world_after Sample.two_subscribers) !! heartbeat
        /\ timers (Sample.world_after (Sample.two_subscribers ++ [LClose 7]))
             !! statusInterval
           = timers (Sample.world_after Sample.two_subscribers) !! statusInterval).
Proof.
  apply (subscribers_independent 1000 Sample.two_subscribers
           (Sample.world_after Sample.two_subscribers)
           (Sample.world_after (Sample.two_subscribers ++ [LClose 7]))
           (LClose 7) 8);
    [vm_compute; reflexivity|vm_compute; reflexivity|vm_compute; reflexivity|].
  discriminate.
Defined.

Lemma reachable_chunk_inventory_witness :
  exists conn,
    connections (Sample.world_after (LConnect 7 :: Sample.then_disconnected)) !! 7
    = Some conn
    /\ times_of "connection" (written conn) = [opened_at conn]
    /\ length (written conn)
       = 1 + length (times_of "heartbeat" (written conn))
           + length (times_of "status" (written conn)).
Proof.
  eexists. split; [vm_compute; reflexivity|].
  apply (reachable_chunk_inventory 1000 (LConnect 7 :: Sample.then_disconnected)
           (Sample.world_after (LConnect 7 :: Sample.then_disconnected)) 7);
    vm_compute; reflexivity.
Defined.

End Examples.
